(** * Data visualization tool: the chart pipeline, the project store and
      the export store of [app.py]

    The development embeds the request handlers of [app.py] as Rocq
    functions.  What the handlers ask of CPython's floats and regular
    expressions and of pandas is an interface, [PyLib], and what they
    ask of the [json] module is another, [JsonLib]: the handlers and
    the theorems about them are written against the interfaces.
    [base64.b64decode], werkzeug's [secure_filename] and password
    hashes and the pandas readers are variables of the sections that
    use them.  Small instances of the interfaces run the handlers on
    examples: integers for floats, and an encoder and a decoder of JSON
    for values whose strings hold code points below 256.

    Definitions come first, facts after them. *)

From Stdlib Require Import ZArith Ascii String List Lia Bool.
From Stdlib Require Import DecimalString DecimalZ DecimalPos DecimalFacts.
From stdpp Require Import base tactics option list strings gmap sorting.

Local Open Scope Z_scope.
Local Open Scope string_scope.

(** ** Exceptions and outcomes *)

(** The Python exception classes the handlers can meet. *)
Inductive exn : Type :=
  | KeyError | ValueError | TypeError | AttributeError | OverflowError
  | ReError | BinasciiError | JSONDecodeError | ParserError | IsADirectoryError.

(** Evaluating a Python expression: a value, or an exception raised. *)
Inductive res (A : Type) : Type :=
  | Ret (a : A)
  | Raise (e : exn).
Arguments Ret {A} a.
Arguments Raise {A} e.

#[global] Instance res_ret : MRet res := @Ret.
#[global] Instance res_bind : MBind res := fun A B f m =>
  match m with Ret a => f a | Raise e => Raise e end.

(** The [error] member of a JSON error body: a fixed text, or a fixed
    prefix followed by the text of a caught exception. *)
Inductive message : Type :=
  | Msg (text : string)
  | MsgExn (text : string) (e : exn).

(** What a view function does: [return jsonify(body)] (status 200),
    [return jsonify({"error": m}), status], or an exception that leaves
    the view, which Flask answers with status 500. *)
Inductive outcome (A : Type) : Type :=
  | Ok (body : A)
  | Error (m : message) (status : Z)
  | Unhandled (e : exn).
Arguments Ok {A} body.
Arguments Error {A} m status.
Arguments Unhandled {A} e.

(** ** The library interface *)

Inductive fkind : Type := FFinite | FNan | FPosInf | FNegInf.

Class PyLib : Type := {
  (** binary64 floats *)
  pyfloat : Type;
  (** [float(s)] for a [str]; [None] is [ValueError] *)
  float_of_str : string -> option pyfloat;
  (** [float(n)] for an [int]; [None] is [OverflowError] *)
  float_of_int : Z -> option pyfloat;
  (** [a >= b] and [a <= b] *)
  float_ge : pyfloat -> pyfloat -> bool;
  float_le : pyfloat -> pyfloat -> bool;
  (** [repr(f)], which is also [str(f)] *)
  float_repr : pyfloat -> string;
  (** [bool(f)] *)
  float_bool : pyfloat -> bool;
  (** finite, nan, inf or -inf *)
  float_kind : pyfloat -> fkind;
  (** [re.compile(pat, re.IGNORECASE)]; [None] is [re.error].  The
      function returned is [lambda s: rx.search(s) is not None]. *)
  re_compile_ignorecase : string -> option (string -> bool);
  (** what [Series.astype(str)] makes of a missing cell: a text (the
      text [nan], up to pandas 2), or [None] where the cell stays
      missing (from pandas 3 on) *)
  str_of_missing : option string;
}.

(** The [json] module, for the values that [request.json] builds. *)
Class JsonLib : Type := {
  (** the values of JSON *)
  jvalue : Type;
  (** [{}] *)
  empty_dict : jvalue;
  (** [json.dumps(v)] *)
  json_dumps : jvalue -> string;
  (** [json.loads(s)]: a value, or an exception raised *)
  json_loads : string -> res jvalue;
}.

Section App.
Context `{L : PyLib}.

(** ** JSON values, as [request.json] builds them

    An object is a dict: [JObj] lists its items in insertion order, and
    the keys of the list are distinct. *)

#[local] Unset Elimination Schemes.
Inductive json : Type :=
  | JNull
  | JBool (b : bool)
  | JInt (z : Z)
  | JFloat (f : pyfloat)
  | JStr (s : string)
  | JArr (l : list json)
  | JObj (m : list (string * json)).
#[local] Set Elimination Schemes.

(** [d.get(key)] on a parsed object: an insertion-ordered dict. *)
Fixpoint assoc_get (key : string) (m : list (string * json)) : option json :=
  match m with
  | [] => None
  | (k, v) :: m' => if String.eqb k key then Some v else assoc_get key m'
  end.

(** [o.get(key)]: only a dict has the method.  [None] stands for
    Python's [None], returned for an absent key and for a JSON null. *)
Definition py_get (o : json) (key : string) : res (option json) :=
  match o with
  | JObj m =>
      Ret (match assoc_get key m with
           | Some JNull => None
           | r => r
           end)
  | _ => Raise AttributeError
  end.

(** [o.get(key, dflt)]: the default is used for an absent key only. *)
Definition py_get_default (o : json) (key : string) (dflt : json) : res json :=
  match o with
  | JObj m => Ret (default dflt (assoc_get key m))
  | _ => Raise AttributeError
  end.

(** [o.items()] *)
Definition py_items (o : json) : res (list (string * json)) :=
  match o with
  | JObj m => Ret m
  | _ => Raise AttributeError
  end.

(** [bool(v)] *)
Definition truthy (v : json) : bool :=
  match v with
  | JNull => false
  | JBool b => b
  | JInt z => negb (Z.eqb z 0)
  | JFloat f => float_bool f
  | JStr s => negb (String.eqb s "")
  | JArr l => match l with [] => false | _ => true end
  | JObj m => match m with [] => false | _ => true end
  end.

(** [float(v)] *)
Definition py_float (v : json) : res pyfloat :=
  match v with
  | JBool b => from_option Ret (Raise OverflowError) (float_of_int (if b then 1 else 0))
  | JInt z => from_option Ret (Raise OverflowError) (float_of_int z)
  | JFloat f => Ret f
  | JStr s => from_option Ret (Raise ValueError) (float_of_str s)
  | JNull | JArr _ | JObj _ => Raise TypeError
  end.

(** ** Tables *)

(** A cell.  A missing cell is the float nan. *)
Inductive scalar : Type :=
  | SInt (z : Z)
  | SFloat (f : pyfloat)
  | SBool (b : bool)
  | SStr (s : string).

(** A [DataFrame]: the column labels and the rows, each row holding one
    cell per label, in label order.  (A row shorter than the labels,
    which no file gives, reads as the empty string past its end.) *)
Record DataFrame : Type := {
  columns : list string;
  rows : list (list scalar);
}.

(** [len(df)] *)
Definition df_len (df : DataFrame) : nat := length (rows df).

Fixpoint index_of (col : string) (cols : list string) : option nat :=
  match cols with
  | [] => None
  | c :: cols' =>
      if String.eqb c col then Some O else S <$> index_of col cols'
  end.

(** [col in df.columns] *)
Definition has_column (df : DataFrame) (col : string) : bool :=
  match index_of col (columns df) with Some _ => true | None => false end.

Definition cell (i : nat) (row : list scalar) : scalar :=
  nth i row (SStr "").

(** [df[col]]: the column as a list, [KeyError] for an absent label. *)
Definition getitem (df : DataFrame) (col : string) : res (list scalar) :=
  match index_of col (columns df) with
  | Some i => Ret (map (cell i) (rows df))
  | None => Raise KeyError
  end.

(** One cell of [Series.astype(float)]. *)
Definition scalar_to_float (c : scalar) : res pyfloat :=
  match c with
  | SInt z => from_option Ret (Raise OverflowError) (float_of_int z)
  | SFloat f => Ret f
  | SBool b => from_option Ret (Raise OverflowError) (float_of_int (if b then 1 else 0))
  | SStr s => from_option Ret (Raise ValueError) (float_of_str s)
  end.

(** [Series.astype(float)]: every cell converts, or the call raises. *)
Fixpoint astype_float (s : list scalar) : res (list pyfloat) :=
  match s with
  | [] => Ret []
  | c :: s' =>
      f ← scalar_to_float c;
      fs ← astype_float s';
      Ret (f :: fs)
  end.

Definition Z_to_string (z : Z) : string :=
  NilZero.string_of_int (Z.to_int z).

(** [str(c)], the text of a cell. *)
Definition scalar_to_str (c : scalar) : string :=
  match c with
  | SInt z => Z_to_string z
  | SFloat f => float_repr f
  | SBool b => if b then "True" else "False"
  | SStr s => s
  end.

(** A missing cell: the float nan. *)
Definition missing (c : scalar) : bool :=
  match c with
  | SFloat f => match float_kind f with FNan => true | _ => false end
  | _ => false
  end.

(** One cell of [Series.astype(str)]: the text of the cell; a missing
    cell becomes what the library makes of it, a text or itself. *)
Definition astype_str_cell (c : scalar) : scalar :=
  if missing c then
    match str_of_missing with
    | Some t => SStr t
    | None => c
    end
  else SStr (scalar_to_str c).

(** [Series.astype(str)] *)
Definition astype_str (s : list scalar) : list scalar := map astype_str_cell s.

(** One element of [Series.str.contains(pat, case=False, na=False)],
    for the search of the compiled pattern: an element that is not a
    text gives [na], here [False]. *)
Definition str_contains (found : string -> bool) (c : scalar) : bool :=
  match c with
  | SStr t => found t
  | _ => false
  end.

(** [df[mask]]: the rows whose mask entry is true, in order. *)
Fixpoint boolean_index {A : Type} (l : list A) (mask : list bool) : list A :=
  match l, mask with
  | x :: l', b :: mask' =>
      if b then x :: boolean_index l' mask' else boolean_index l' mask'
  | _, _ => []
  end.

Definition df_mask (df : DataFrame) (mask : list bool) : DataFrame :=
  {| columns := columns df; rows := boolean_index (rows df) mask |}.

(** ** The filter step of [generate_chart] (lines 173-186) *)

(** [df[df[col].astype(float) >= float(bound)]], and the same with [<=]. *)
Definition range_bound (cmp : pyfloat -> pyfloat -> bool)
    (df : DataFrame) (col : string) (bound : json) : res DataFrame :=
  s ← getitem df col;
  fs ← astype_float s;
  b ← py_float bound;
  Ret (df_mask df (map (fun f => cmp f b) fs)).

(** [df[df[col].astype(str).str.contains(txt, case=False, na=False)]] *)
Definition text_contains (df : DataFrame) (col : string) (txt : json)
    : res DataFrame :=
  s ← getitem df col;
  match txt with
  | JStr pat =>
      match re_compile_ignorecase pat with
      | Some found => Ret (df_mask df (map (str_contains found) (astype_str s)))
      | None => Raise ReError
      end
  | _ => Raise TypeError
  end.

Definition json_is_str (v : option json) (s : string) : bool :=
  match v with
  | Some (JStr s') => String.eqb s' s
  | _ => false
  end.

(** The body of the loop, for one item of [filters.items()]. *)
Definition apply_filter (df : DataFrame) (col : string) (fconf : json)
    : res DataFrame :=
  if negb (has_column df col) then Ret df
  else
    ty ← py_get fconf "type";
    if json_is_str ty "range" then
      mn ← py_get fconf "min";
      mx ← py_get fconf "max";
      df1 ← match mn with
            | Some v => range_bound float_ge df col v
            | None => Ret df
            end;
      match mx with
      | Some v => range_bound float_le df1 col v
      | None => Ret df1
      end
    else if json_is_str ty "text" then
      txt ← py_get_default fconf "text" (JStr "");
      if truthy txt then text_contains df col txt else Ret df
    else Ret df.

(** The loop. *)
Fixpoint apply_items (df : DataFrame) (items : list (string * json))
    : res DataFrame :=
  match items with
  | [] => Ret df
  | (col, fconf) :: items' =>
      df' ← apply_filter df col fconf;
      apply_items df' items'
  end.

(** The [try] block: the Filter Engine. *)
Definition apply_filters (df : DataFrame) (filters : json) : res DataFrame :=
  items ← py_items filters;
  apply_items df items.

(** ** [generate_chart] *)

(** What a path leads to, as [read_table] finds it: something pandas
    parses to a table, or something it raises on, an ill-formed file or
    a directory.

    The upload folder is a map [uploads] from the names that requests
    give: [uploads !! name] is what [os.path.join(UPLOAD_FOLDER, name)]
    leads to, and [None] where [os.path.exists] of that path is false.
    A name is taken for the path it leads to.  The names [.] and [..],
    and a name that leads out of the folder, can have entries like any
    other: the views do not tell them apart. *)
Inductive upload : Type :=
  | Readable (df : DataFrame)
  | Unreadable (e : exn).

Definition read_table (f : upload) : res DataFrame :=
  match f with
  | Readable df => Ret df
  | Unreadable e => Raise e
  end.

(** The members of the request body that the view reads: a JSON object
    whose [file], [xcol] and [ycol] members are strings or absent,
    [None] being an absent or null member; [filters] is any value, or
    absent. *)
Record ChartRequest : Type := {
  req_file : option string;
  req_xcol : option string;
  req_ycol : option string;
  req_filters : option json;
}.

(** The body of the answer.  [x] holds texts, and the cells that
    [astype(str)] left missing. *)
Record ChartResponse : Type := {
  x : list scalar;
  y : list scalar;
  nrows : nat;
}.

(** [not s] for [s = data.get(key)] *)
Definition py_not (s : option string) : bool :=
  match s with
  | Some s => String.eqb s ""
  | None => true
  end.

Definition generate_chart (uploads : gmap string upload) (data : ChartRequest)
    : outcome ChartResponse :=
  let filename := req_file data in
  let xcol := req_xcol data in
  let ycol := req_ycol data in
  let filters := default (JObj []) (req_filters data) in
  if py_not filename || py_not xcol || py_not ycol then
    Error (Msg "file,xcol,ycol required") 400
  else
    match uploads !! default "" filename with
    | None => Error (Msg "file not found") 404
    | Some f =>
        match read_table f with
        | Raise e => Unhandled e
        | Ret df =>
            match apply_filters df filters with
            | Raise e => Error (MsgExn "filtering error: " e) 400
            | Ret df =>
                match getitem df (default "" xcol) with
                | Raise e => Unhandled e
                | Ret xs =>
                    let xvals := astype_str xs in
                    match getitem df (default "" ycol) with
                    | Raise e => Unhandled e
                    | Ret yvals =>
                        Ok {| x := xvals; y := yvals; nrows := df_len df |}
                    end
                end
            end
        end
    end.

End App.

(** ** An encoder and a decoder of JSON

    An instance of [JsonLib] for examples: [dumps] and [loads] follow
    CPython's encoder and decoder on the values [json], whose strings
    hold code points below 256.  A text with an escape of a code point
    from 256 on, which CPython reads, is outside the instance: [loads]
    refuses it.  The text is a list of characters.  [dumps] runs with
    the defaults of [json.dumps]: separators [", "] and [": "],
    [ensure_ascii], [allow_nan].  Integers of more than 4300 digits,
    which CPython refuses to print and to read, are not treated
    apart. *)

Section Json.
Context `{L : PyLib}.
Local Open Scope list_scope.

Definition chars (s : string) : list ascii := list_ascii_of_string s.

Definition dquote : ascii := "034"%char.
Definition backslash : ascii := "092"%char.

Definition hex_char (n : N) : ascii :=
  nth (N.to_nat n) (chars "0123456789abcdef") "0"%char.

(** [ESCAPE_ASCII] and [ESCAPE_DCT]: the quote, the backslash and the
    five short escapes, every other character outside [' '..'~'] as
    [\u00xx]. *)
Definition escape_char (c : ascii) : list ascii :=
  match c with
  | "034"%char => [backslash; dquote]
  | "092"%char => [backslash; backslash]
  | "008"%char => [backslash; "b"%char]
  | "012"%char => [backslash; "f"%char]
  | "010"%char => [backslash; "n"%char]
  | "013"%char => [backslash; "r"%char]
  | "009"%char => [backslash; "t"%char]
  | _ =>
      let n := N_of_ascii c in
      if ((32 <=? n) && (n <=? 126))%N then [c]
      else backslash :: chars "u00" ++ [hex_char (n / 16); hex_char (n mod 16)]
  end.

Definition encode_string (s : string) : list ascii :=
  dquote :: flat_map escape_char (chars s) ++ [dquote].

Fixpoint join_with {A : Type} (enc : A -> list ascii) (l : list A) : list ascii :=
  match l with
  | [] => []
  | a :: l' =>
      match l' with
      | [] => enc a
      | _ :: _ => enc a ++ chars ", " ++ join_with enc l'
      end
  end.

Definition encode_float (f : pyfloat) : list ascii :=
  match float_kind f with
  | FFinite => chars (float_repr f)
  | FNan => chars "NaN"
  | FPosInf => chars "Infinity"
  | FNegInf => chars "-Infinity"
  end.

Fixpoint encode (v : json) : list ascii :=
  match v with
  | JNull => chars "null"
  | JBool b => chars (if b then "true" else "false")
  | JInt z => chars (Z_to_string z)
  | JFloat f => encode_float f
  | JStr s => encode_string s
  | JArr l => "["%char :: join_with encode l ++ ["]"%char]
  | JObj m =>
      "{"%char ::
      join_with (fun kv => encode_string (fst kv) ++ chars ": " ++ encode (snd kv)) m
      ++ ["}"%char]
  end.

Definition dumps (v : json) : string := string_of_list_ascii (encode v).

(** [WHITESPACE] *)
Definition is_ws (c : ascii) : bool :=
  match c with
  | " "%char | "009"%char | "010"%char | "013"%char => true
  | _ => false
  end.

Fixpoint skip_ws (s : list ascii) : list ascii :=
  match s with
  | c :: s' => if is_ws c then skip_ws s' else s
  | [] => []
  end.

Definition is_digit (c : ascii) : bool :=
  ((48 <=? N_of_ascii c) && (N_of_ascii c <=? 57))%N.

(** The longest prefix of digits, and what follows it. *)
Fixpoint span_digits (s : list ascii) : list ascii * list ascii :=
  match s with
  | c :: s' =>
      if is_digit c then let (d, r) := span_digits s' in (c :: d, r)
      else ([], s)
  | [] => ([], [])
  end.

Definition hex_value (c : ascii) : option N :=
  let n := N_of_ascii c in
  if ((48 <=? n) && (n <=? 57))%N then Some (n - 48)%N
  else if ((97 <=? n) && (n <=? 102))%N then Some (n - 87)%N
  else if ((65 <=? n) && (n <=? 70))%N then Some (n - 55)%N
  else None.

(** [\uXXXX]: four hexadecimal digits.  A code point of 256 or more has
    no character here, and the scan gives up on it. *)
Definition decode_uXXXX (a b c d : ascii) : option ascii :=
  ha ← hex_value a; hb ← hex_value b; hc ← hex_value c; hd ← hex_value d;
  let n := (((ha * 16 + hb) * 16 + hc) * 16 + hd)%N in
  if (n <? 256)%N then Some (ascii_of_N n) else None.

(** [BACKSLASH] *)
Definition simple_escape (c : ascii) : option ascii :=
  match c with
  | "034"%char => Some dquote
  | "092"%char => Some backslash
  | "/"%char => Some "/"%char
  | "b"%char => Some "008"%char
  | "f"%char => Some "012"%char
  | "n"%char => Some "010"%char
  | "r"%char => Some "013"%char
  | "t"%char => Some "009"%char
  | _ => None
  end.

(** [scanstring], strict, from just after the opening quote: the
    string and the text after the closing quote. *)
Fixpoint scanstring (s : list ascii) : option (list ascii * list ascii) :=
  match s with
  | [] => None
  | "034"%char :: rest => Some ([], rest)
  | "092"%char :: "u"%char :: a :: b :: c :: d :: rest =>
      ch ← decode_uXXXX a b c d;
      '(str, rest') ← scanstring rest;
      Some (ch :: str, rest')
  | "092"%char :: e :: rest =>
      ch ← simple_escape e;
      '(str, rest') ← scanstring rest;
      Some (ch :: str, rest')
  | "092"%char :: [] => None
  | c :: rest =>
      if (N_of_ascii c <? 32)%N then None
      else '(str, rest') ← scanstring rest; Some (c :: str, rest')
  end.

(** The fraction group: a point and one digit or more, or nothing. *)
Definition scan_frac (s : list ascii) : list ascii * list ascii :=
  match s with
  | c :: s' =>
      if Ascii.eqb c "." then
        match span_digits s' with
        | ([], _) => ([], s)
        | (ds, r) => (c :: ds, r)
        end
      else ([], s)
  | [] => ([], s)
  end.

(** The exponent group: [e] or [E], an optional sign and one digit or
    more, or nothing. *)
Definition scan_exp (s : list ascii) : list ascii * list ascii :=
  match s with
  | e :: s' =>
      if Ascii.eqb e "e" || Ascii.eqb e "E" then
        let (sign, s'') :=
          match s' with
          | c :: t => if Ascii.eqb c "-" || Ascii.eqb c "+" then ([c], t) else ([], s')
          | [] => ([], s')
          end in
        match span_digits s'' with
        | ([], _) => ([], s)
        | (ds, r) => (e :: sign ++ ds, r)
        end
      else ([], s)
  | [] => ([], s)
  end.

(** The integer group of [NUMBER_RE]: an optional minus sign, then a
    single zero or a nonzero digit followed by digits. *)
Definition scan_unsigned (sign s : list ascii)
    : option (list ascii * list ascii) :=
  match s with
  | c :: s2 =>
      if Ascii.eqb c "0" then Some (sign ++ [c], s2)
      else if is_digit c then
        let (ds, s3) := span_digits s2 in Some (sign ++ c :: ds, s3)
      else None
  | [] => None
  end.

Definition scan_integer (s : list ascii) : option (list ascii * list ascii) :=
  match s with
  | c :: s' => if Ascii.eqb c "-" then scan_unsigned [c] s' else scan_unsigned [] s
  | [] => None
  end.

(** [NUMBER_RE.match]: the integer, fraction and exponent groups (an
    unmatched group is empty) and the text after the match. *)
Definition scan_number (s : list ascii)
    : option (list ascii * list ascii * list ascii * list ascii) :=
  '(ip, s1) ← scan_integer s;
  let (fr, s2) := scan_frac s1 in
  let (ex, s3) := scan_exp s2 in
  Some (ip, fr, ex, s3).

Fixpoint strip_prefix (p s : list ascii) : option (list ascii) :=
  match p, s with
  | [], _ => Some s
  | a :: p', c :: s' => if Ascii.eqb a c then strip_prefix p' s' else None
  | _ :: _, [] => None
  end.

Definition is_nil {A : Type} (l : list A) : bool :=
  match l with [] => true | _ => false end.

(** The number and constant cases of [scan_once]. *)
Definition scan_number_or_constant (s : list ascii) : option (json * list ascii) :=
  match scan_number s with
  | Some (ip, fr, ex, rest) =>
      if is_nil fr && is_nil ex then
        d ← NilZero.int_of_string (string_of_list_ascii ip);
        Some (JInt (Z.of_int d), rest)
      else
        f ← float_of_str (string_of_list_ascii (ip ++ fr ++ ex));
        Some (JFloat f, rest)
  | None =>
      match strip_prefix (chars "NaN") s with
      | Some rest => f ← float_of_str "nan"; Some (JFloat f, rest)
      | None =>
      match strip_prefix (chars "Infinity") s with
      | Some rest => f ← float_of_str "inf"; Some (JFloat f, rest)
      | None =>
      match strip_prefix (chars "-Infinity") s with
      | Some rest => f ← float_of_str "-inf"; Some (JFloat f, rest)
      | None => None
      end end end
  end.

(** The cases of [scan_once] that do not recurse. *)
Definition scan_atom (s : list ascii) : option (json * list ascii) :=
  match strip_prefix (chars "null") s with
  | Some rest => Some (JNull, rest)
  | None =>
  match strip_prefix (chars "true") s with
  | Some rest => Some (JBool true, rest)
  | None =>
  match strip_prefix (chars "false") s with
  | Some rest => Some (JBool false, rest)
  | None => scan_number_or_constant s
  end end end.

(** [d[k] = v]: a key already present keeps its place. *)
Fixpoint dict_set (k : string) (v : json) (d : list (string * json))
    : list (string * json) :=
  match d with
  | [] => [(k, v)]
  | (k', v') :: d' =>
      if String.eqb k' k then (k', v) :: d' else (k', v') :: dict_set k v d'
  end.

(** [dict(pairs)] *)
Definition py_dict (pairs : list (string * json)) : list (string * json) :=
  fold_left (fun d kv => dict_set (fst kv) (snd kv) d) pairs [].

(** [scan_once], [JSONArray] and [JSONObject].  [fuel] bounds the depth
    of the calls; [loads] gives more than the text can use. *)
Fixpoint scan_once (fuel : nat) (s : list ascii) {struct fuel}
    : option (json * list ascii) :=
  match fuel with
  | O => None
  | S fuel =>
      match s with
      | "034"%char :: s' =>
          '(str, rest) ← scanstring s';
          Some (JStr (string_of_list_ascii str), rest)
      | "{"%char :: s' =>
          match skip_ws s' with
          | "}"%char :: rest => Some (JObj [], rest)
          | "034"%char :: s'' =>
              '(pairs, rest) ← scan_members fuel s'';
              Some (JObj (py_dict pairs), rest)
          | _ => None
          end
      | "["%char :: s' =>
          match skip_ws s' with
          | "]"%char :: rest => Some (JArr [], rest)
          | s'' =>
              '(vs, rest) ← scan_elements fuel s'';
              Some (JArr vs, rest)
          end
      | _ => scan_atom s
      end
  end
with scan_elements (fuel : nat) (s : list ascii) {struct fuel}
    : option (list json * list ascii) :=
  match fuel with
  | O => None
  | S fuel =>
      '(v, rest) ← scan_once fuel s;
      match skip_ws rest with
      | "]"%char :: rest' => Some ([v], rest')
      | ","%char :: rest' =>
          '(vs, rest'') ← scan_elements fuel (skip_ws rest');
          Some (v :: vs, rest'')
      | _ => None
      end
  end
with scan_members (fuel : nat) (s : list ascii) {struct fuel}
    : option (list (string * json) * list ascii) :=
  match fuel with
  | O => None
  | S fuel =>
      '(k, rest) ← scanstring s;
      match skip_ws rest with
      | ":"%char :: rest1 =>
          '(v, rest2) ← scan_once fuel (skip_ws rest1);
          let kv := (string_of_list_ascii k, v) in
          match skip_ws rest2 with
          | "}"%char :: rest3 => Some ([kv], rest3)
          | ","%char :: rest3 =>
              match skip_ws rest3 with
              | "034"%char :: rest4 =>
                  '(ps, rest5) ← scan_members fuel rest4;
                  Some (kv :: ps, rest5)
              | _ => None
              end
          | _ => None
          end
      | _ => None
      end
  end.

(** [loads(s)]: leading whitespace, one value, trailing
    whitespace, and nothing more. *)
Definition loads (s : string) : res json :=
  let t := skip_ws (chars s) in
  match scan_once (S (length t)) t with
  | Some (v, rest) =>
      match skip_ws rest with
      | [] => Ret v
      | _ :: _ => Raise JSONDecodeError
      end
  | None => Raise JSONDecodeError
  end.

(** A float literal of JSON: [NUMBER_RE] matches the whole of the text,
    with a fraction or an exponent. *)
Definition is_float_literal (s : string) : bool :=
  match scan_number (chars s) with
  | Some (_, fr, ex, []) => negb (is_nil fr && is_nil ex)
  | _ => false
  end.

(** The text after a value in what [dumps] writes: the end, or a
    character that cannot continue a number. *)
Definition terminated (rest : list ascii) : Prop :=
  match rest with
  | [] => True
  | c :: _ => is_digit c = false /\ c <> "."%char /\ c <> "e"%char /\ c <> "E"%char
  end.

Fixpoint distinct (l : list string) : bool :=
  match l with
  | [] => true
  | k :: l' => negb (existsb (String.eqb k) l') && distinct l'
  end.

Definition no_digit_head (rest : list ascii) : Prop :=
  match rest with
  | [] => True
  | c :: _ => is_digit c = false
  end.

(** The values JSON can represent: every float is finite, and the keys
    of an object are distinct, as they are in a dict. *)
Fixpoint representable (v : json) : bool :=
  match v with
  | JFloat f => match float_kind f with FFinite => true | _ => false end
  | JArr l => forallb representable l
  | JObj m => distinct (map fst m) && forallb (fun kv => representable (snd kv)) m
  | _ => true
  end.

(** The characters a value's text can start with, the constants [NaN]
    and [Infinity] apart. *)
Definition value_head (c : ascii) : bool :=
  is_digit c || existsb (Ascii.eqb c) ("-"%char :: dquote :: chars "{[ntf").

(** The text of one member of an object. *)
Definition encode_member (kv : string * json) : list ascii :=
  encode_string (fst kv) ++ chars ": " ++ encode (snd kv).

(** [v] is read back from its text, whatever follows the text, by a
    scan with fuel at least the length of the text. *)
Definition reads_back (v : json) : Prop :=
  representable v = true ->
  forall fuel rest, (length (encode v) <= fuel)%nat -> terminated rest ->
  scan_once fuel (encode v ++ rest) = Some (v, rest).

End Json.

(** What the round trip of a float through its [repr] needs of the
    library: for a finite float, [repr] writes a float literal of JSON,
    and [float] reads it back as the same float. *)
Class PyFloatLaws `{L : PyLib} : Prop := {
  float_repr_literal :
    forall f, float_kind f = FFinite -> is_float_literal (float_repr f) = true;
  float_of_repr :
    forall f, float_kind f = FFinite -> float_of_str (float_repr f) = Some f;
}.

(** ** The project store: [save_project] and [load_project] *)

(** A row of the [project] table.  [created_at] is a timestamp. *)
Module Project.
Record t : Type := {
  id : Z;
  owner_id : Z;
  name : string;
  file_path : string;
  config_json : string;
  created_at : Z;
}.
End Project.

Section ProjectStore.
Context `{L : PyLib} `{J : JsonLib}.

(** The primary key the database gives a new row: one more than the
    largest key in the table. *)
Definition next_id (db : gmap Z Project.t) : Z :=
  1 + map_fold (fun k _ acc => Z.max k acc) 0 db.

(** The members of the body of a save request: a JSON object whose
    [name] and [file] members are strings or absent, [None] being an
    absent member; [config] is any value, or absent.  A body with a
    [name] or [file] of another type (a number, a null [name]) is
    outside the record: the code hands such a value to [os.path.join]
    or to the database, which raise. *)
Record SaveRequest : Type := {
  save_name : option string;
  save_file : option string;
  save_config : option jvalue;
}.

(** [session] is [Some uid] when ["user_id"] is in the session; [now]
    is the clock read for [created_at].  The result is the answer and
    the table after the call. *)
Definition save_project (session : option Z) (uploads : gmap string upload)
    (db : gmap Z Project.t) (now : Z) (data : SaveRequest)
    : outcome Z * gmap Z Project.t :=
  match session with
  | None => (Error (Msg "authentication required") 401, db)
  | Some uid =>
      let name := default "Untitled" (save_name data) in
      let filename := save_file data in
      let config := default empty_dict (save_config data) in
      if py_not filename then (Error (Msg "file required") 400, db)
      else
        match uploads !! default "" filename with
        | None => (Error (Msg "file not found") 404, db)
        | Some _ =>
            let p := {| Project.id := next_id db;
                        Project.owner_id := uid;
                        Project.name := name;
                        Project.file_path := default "" filename;
                        Project.config_json := json_dumps config;
                        Project.created_at := now |} in
            (Ok (Project.id p), <[Project.id p := p]> db)
        end
  end.

Record ProjectView : Type := {
  view_id : Z;
  view_name : string;
  view_file : string;
  view_config : jvalue;
  view_created_at : Z;
}.

Definition load_project (session : option Z) (db : gmap Z Project.t)
    (proj_id : Z) : outcome ProjectView :=
  match session with
  | None => Error (Msg "authentication required") 401
  | Some uid =>
      match db !! proj_id with
      | None => Error (Msg "project not found or access denied") 404
      | Some p =>
          if negb (Z.eqb (Project.owner_id p) uid) then
            Error (Msg "project not found or access denied") 404
          else
            match json_loads (Project.config_json p) with
            | Raise e => Unhandled e
            | Ret config =>
                Ok {| view_id := Project.id p;
                      view_name := Project.name p;
                      view_file := Project.file_path p;
                      view_config := config;
                      view_created_at := Project.created_at p |}
            end
      end
  end.

(** [json.loads] reads the config of every row of the table. *)
Definition loadable (db : gmap Z Project.t) : Prop :=
  forall k p, db !! k = Some p ->
    exists C, json_loads (Project.config_json p) = Ret C.

End ProjectStore.

(** ** The export store: [save_png] *)

Section ExportStore.

(** [base64.b64decode(s)] for a [str], and werkzeug's
    [secure_filename]. *)
Variable b64decode : string -> res string.
Variable secure_filename : string -> string.

Record PngRequest : Type := {
  png_name : option string;
  png_dataURL : option string;
}.

(** The text before the first [sep] and the text after it. *)
Fixpoint split_first (sep : ascii) (s : string) : option (string * string) :=
  match s with
  | EmptyString => None
  | String c s' =>
      if Ascii.eqb c sep then Some (EmptyString, s')
      else
        match split_first sep s' with
        | Some (h, t) => Some (String c h, t)
        | None => None
        end
  end.

(** [s.split(",", 1)] *)
Definition split_comma_once (s : string) : list string :=
  match split_first "," s with
  | Some (h, t) => [h; t]
  | None => [s]
  end.

(** [a, b = l] *)
Definition unpack2 (l : list string) : res (string * string) :=
  match l with
  | [a; b] => Ret (a, b)
  | _ => Raise ValueError
  end.

(** [default_name] is the name built from the clock; the files of the
    export folder are a map from name to content.  The result is the
    answer and the folder after the call. *)
Definition save_png (default_name : string) (exports : gmap string string)
    (data : PngRequest) : outcome string * gmap string string :=
  let name := default default_name (png_name data) in
  let dataurl := png_dataURL data in
  if py_not dataurl then (Error (Msg "dataURL required") 400, exports)
  else
    match unpack2 (split_comma_once (default "" dataurl)) with
    | Raise e => (Unhandled e, exports)
    | Ret (header, b64) =>
        match b64decode b64 with
        | Raise e => (Unhandled e, exports)
        | Ret raw =>
            let safe_name := secure_filename name in
            if String.eqb safe_name "" then (Unhandled IsADirectoryError, exports)
            else (Ok ("/exports/" +:+ safe_name), <[safe_name := raw]> exports)
        end
    end.

End ExportStore.

(** ** Row predicates and composed filters, for stating the facts *)

Section Predicates.
Context `{L : PyLib}.

Definition range_pass (cmp : pyfloat -> pyfloat -> bool) (i : nat) (bound : json)
    (row : list scalar) : bool :=
  match scalar_to_float (cell i row), py_float bound with
  | Ret f, Ret b => cmp f b
  | _, _ => false
  end.

Definition text_pass (i : nat) (txt : json) (row : list scalar) : bool :=
  match txt with
  | JStr pat =>
      match re_compile_ignorecase pat with
      | Some found => str_contains found (astype_str_cell (cell i row))
      | None => false
      end
  | _ => false
  end.

Definition opt_pass (p : json -> list scalar -> bool) (v : option json)
    (row : list scalar) : bool :=
  match v with Some v => p v row | None => true end.

(** The rows one item lets through, when applying it does not raise. *)
Definition item_pass (cols : list string) (item : string * json)
    (row : list scalar) : bool :=
  let (col, fconf) := item in
  match index_of col cols with
  | None => true
  | Some i =>
      match py_get fconf "type" with
      | Raise _ => true
      | Ret ty =>
          if json_is_str ty "range" then
            match py_get fconf "min", py_get fconf "max" with
            | Ret mn, Ret mx =>
                opt_pass (range_pass float_ge i) mn row
                && opt_pass (range_pass float_le i) mx row
            | _, _ => true
            end
          else if json_is_str ty "text" then
            match py_get_default fconf "text" (JStr "") with
            | Ret txt => if truthy txt then text_pass i txt row else true
            | Raise _ => true
            end
          else true
      end
  end.

Definition items_pass (cols : list string) (items : list (string * json))
    (row : list scalar) : bool :=
  forallb (fun item => item_pass cols item row) items.

(** The rows of [rs'] all come from [rs]. *)
Definition within (rs rs' : list (list scalar)) : Prop :=
  forall r, r ∈ rs' -> r ∈ rs.

(** [F1] followed by [F2]: the Filter Engine run twice. *)
Definition then_filters (df : DataFrame) (F1 F2 : json) : res DataFrame :=
  df1 ← apply_filters df F1;
  apply_filters df1 F2.

End Predicates.

(** ** A small instance of the library interface

    The floats of the instance are the integers.  [float] reads a
    decimal integer with an optional minus sign and an optional [.0],
    and [repr] writes one with [.0]; for integers below 2^53 in
    magnitude this is what CPython computes on these texts, and every
    other text is rejected.  The patterns of the instance are the
    regular expressions built from literal characters and the wildcard
    [.], matched without regard to the case of ASCII letters; a pattern
    that holds another metacharacter is rejected, which CPython does
    for ill-formed patterns only. *)

Definition strip_point_zero (s : list ascii) : list ascii :=
  match rev s with
  | "0"%char :: "."%char :: r => rev r
  | _ => s
  end.

Definition int_float_of_str (s : string) : option Z :=
  Z.of_int <$>
    NilZero.int_of_string (string_of_list_ascii (strip_point_zero (chars s))).

Definition int_float_repr (z : Z) : string :=
  Z_to_string z +:+ ".0".

Definition ascii_lower (c : ascii) : ascii :=
  let n := nat_of_ascii c in
  if (65 <=? n)%nat && (n <=? 90)%nat then ascii_of_nat (n + 32) else c.

Definition is_meta (c : ascii) : bool :=
  existsb (Ascii.eqb c) (list_ascii_of_string "\^$*+?{}[]|()").

(** One pattern character against one subject character. *)
Definition char_matches (p c : ascii) : bool :=
  if Ascii.eqb p "."%char then negb (Ascii.eqb c "010"%char)
  else Ascii.eqb (ascii_lower p) (ascii_lower c).

(** The pattern matches a prefix of the subject. *)
Fixpoint match_here (p s : list ascii) : bool :=
  match p, s with
  | [], _ => true
  | _ :: _, [] => false
  | a :: p', c :: s' => char_matches a c && match_here p' s'
  end.

(** [rx.search]: the pattern matches at some position. *)
Fixpoint search (p s : list ascii) : bool :=
  match_here p s ||
  match s with
  | [] => false
  | _ :: s' => search p s'
  end.

Definition dot_compile (pat : string) : option (string -> bool) :=
  let p := list_ascii_of_string pat in
  if existsb is_meta p then None
  else Some (fun s => search p (list_ascii_of_string s)).

#[local] Instance IntLib : PyLib := {|
  pyfloat := Z;
  float_of_str := int_float_of_str;
  float_of_int := fun z => Some z;
  float_ge := Z.geb;
  float_le := Z.leb;
  float_repr := int_float_repr;
  float_bool := fun z => negb (Z.eqb z 0);
  float_kind := fun _ => FFinite;
  re_compile_ignorecase := dot_compile;
  str_of_missing := Some "nan";
|}.

(** The encoder and the decoder of JSON, over the small instance. *)
#[local] Instance IntJson : JsonLib := {|
  jvalue := json;
  empty_dict := JObj [];
  json_dumps := dumps;
  json_loads := loads;
|}.

(** The small instance with a nan added: a float is an integer or, as
    [None], nan, which [float] reads from the text [nan] in any case.
    [kept] is what [astype(str)] makes of a missing cell. *)
Definition NanLib (kept : option string) : PyLib := {|
  pyfloat := option Z;
  float_of_str := fun s =>
    if String.eqb (string_of_list_ascii (map ascii_lower (chars s))) "nan"
    then Some None else Some <$> int_float_of_str s;
  float_of_int := fun z => Some (Some z);
  float_ge := fun a b =>
    match a, b with Some m, Some n => Z.geb m n | _, _ => false end;
  float_le := fun a b =>
    match a, b with Some m, Some n => Z.leb m n | _, _ => false end;
  float_repr := fun f =>
    match f with Some z => int_float_repr z | None => "nan" end;
  float_bool := fun f =>
    match f with Some z => negb (Z.eqb z 0) | None => true end;
  float_kind := fun f =>
    match f with Some _ => FFinite | None => FNan end;
  re_compile_ignorecase := dot_compile;
  str_of_missing := kept;
|}.

(** A table with gaps, as [read_csv] gives it for the lines [ann,1.0,7,True]
    and [,,8,False] under the labels [A,B,C,D]: a missing cell is nan. *)
Definition gaps (kept : option string) : DataFrame (L := NanLib kept) :=
  let nan : scalar (L := NanLib kept) := SFloat (L := NanLib kept) None in
  Build_DataFrame (L := NanLib kept) ["A"; "B"; "C"; "D"]
    [[SStr "ann"; SFloat (L := NanLib kept) (Some 1); SInt 7; SBool true];
     [nan; nan; SInt 8; SBool false]].

(** A request for the chart of two columns of [gaps], without filters. *)
Definition gaps_request (kept : option string) (xcol ycol : string)
    : ChartRequest (L := NanLib kept) :=
  Build_ChartRequest (L := NanLib kept) (Some "f.csv") (Some xcol) (Some ycol) None.

(** The spec's text predicate: [t] is a substring of [s], the case of
    ASCII letters apart. *)
Definition contains_ci (t s : string) : bool :=
  let lower := map ascii_lower in
  let t' := lower (list_ascii_of_string t) in
  let s' := lower (list_ascii_of_string s) in
  existsb (fun k => bool_decide (take (length t') (drop k s') = t'))
          (seq 0 (S (length s'))).

Section Examples.

Definition pets : DataFrame := {|
  columns := ["A"; "B"];
  rows := [[SInt 1; SStr "cat"]; [SInt 5; SStr "dog"]; [SInt 10; SStr "cattle"]];
|}.

Definition range_min (v : json) : json := JObj [("type", JStr "range"); ("min", v)].
Definition text_of (t : string) : json := JObj [("type", JStr "text"); ("text", JStr t)].

Definition mixed : DataFrame := {|
  columns := ["A"; "B"];
  rows := [[SInt 1; SStr "x"]; [SInt 5; SStr "3"]];
|}.

Definition letters : DataFrame := {|
  columns := ["B"];
  rows := [[SStr "abc"]; [SStr "a.c"]; [SStr "xyz"]];
|}.

Definition chart_request (file xcol ycol : string) (filters : option json)
    : ChartRequest :=
  {| req_file := Some file; req_xcol := Some xcol; req_ycol := Some ycol;
     req_filters := filters |}.

(** A chart configuration; the last string holds a newline, a quote, a
    character above 127 and a backslash. *)
Definition sample_config : json :=
  JObj [("x", JStr "A"); ("n", JInt (-12)); ("f", JFloat 3);
        ("ok", JBool true); ("none", JNull);
        ("l", JArr [JInt 0; JArr []; JObj [];
                    JStr ("a" ++ String "010" (String "034" (String "200" "\z")))])].

End Examples.

(** ** The rest of [app.py]: the table loader, uploads, accounts and the
       project list *)

(** *** [allowed_file] and [read_table] (lines 50-61) *)

(** [s.rsplit(sep, 1)], when [sep] occurs in [s]: the text before the
    last [sep] and the text after it. *)
Fixpoint split_last (sep : ascii) (s : string) : option (string * string) :=
  match s with
  | EmptyString => None
  | String c s' =>
      match split_last sep s' with
      | Some (h, t) => Some (String c h, t)
      | None => if Ascii.eqb c sep then Some (EmptyString, s') else None
      end
  end.

(** [s.rsplit(".", 1)[-1]] *)
Definition rsplit_dot_last (s : string) : string :=
  match split_last "." s with
  | Some (_, t) => t
  | None => s
  end.

(** [c.lower()] for a code point below 256: the ASCII capitals and the
    Latin-1 capitals (all of 192-222 but the multiplication sign). *)
Definition lower_char (c : ascii) : ascii :=
  let n := N_of_ascii c in
  if ((65 <=? n) && (n <=? 90) || (192 <=? n) && (n <=? 222) && negb (n =? 215))%N
  then ascii_of_N (n + 32) else c.

(** [s.lower()] *)
Fixpoint py_lower (s : string) : string :=
  match s with
  | EmptyString => EmptyString
  | String c s' => String (lower_char c) (py_lower s')
  end.

Definition ALLOWED_EXT : list string := ["csv"; "xlsx"; "xls"].

(** [x in l] for strings *)
Definition str_in (x : string) (l : list string) : bool :=
  existsb (String.eqb x) l.

(** ["." in s] *)
Definition has_dot (s : string) : bool :=
  existsb (Ascii.eqb ".") (list_ascii_of_string s).

Definition allowed_file (filename : string) : bool :=
  let ext := py_lower (rsplit_dot_last filename) in
  has_dot filename && str_in ext ALLOWED_EXT.

Module Loader.
Section Loader.
Context `{L : PyLib}.

(** What is in a file, and what [pd.read_csv] and [pd.read_excel] make
    of a file that holds it. *)
Variable content : Type.
Variable read_csv : content -> res DataFrame.
Variable read_excel : content -> res DataFrame.

(** [read_table(filepath)], for a file at [filepath] that holds [c]. *)
Definition read_table (filepath : string) (c : content) : res DataFrame :=
  let ext := py_lower (rsplit_dot_last filepath) in
  if str_in ext ["xls"; "xlsx"] then read_excel c else read_csv c.

End Loader.
End Loader.

(** *** [upload_file] and [get_columns] (lines 116-151) *)

Section Uploads.
Context `{L : PyLib}.
Variable content : Type.
Variable read_csv : content -> res DataFrame.
Variable read_excel : content -> res DataFrame.
Variable secure_filename : string -> string.
Variable UPLOAD_FOLDER : string.

(** [path.endswith("/")] *)
Fixpoint ends_with_slash (s : string) : bool :=
  match s with
  | EmptyString => false
  | String c EmptyString => Ascii.eqb c "/"
  | String _ s' => ends_with_slash s'
  end.

(** [os.path.join(a, b)] of [posixpath] *)
Definition path_join (a b : string) : string :=
  match b with
  | String "/" _ => b
  | _ =>
      if String.eqb a "" || ends_with_slash a then a +:+ b
      else a +:+ "/" +:+ b
  end.

(** The file of the upload folder that holds [c] under the name
    [filename], as [read_table] finds it. *)
Definition stored (filename : string) (c : content) : upload :=
  match Loader.read_table content read_csv read_excel
          (path_join UPLOAD_FOLDER filename) c with
  | Ret df => Readable df
  | Raise e => Unreadable e
  end.

(** [request.files["file"]]: the name the client gave and what the file
    holds. *)
Record FileStorage : Type := {
  fs_filename : string;
  fs_content : content;
}.

(** [fillna("")] on one cell *)
Definition fillna_empty (c : scalar) : scalar :=
  match c with
  | SFloat f => match float_kind f with FNan => SStr "" | _ => c end
  | _ => c
  end.

(** [d[k] = v] on a record: a label already there keeps its place. *)
Fixpoint record_set (k : string) (v : scalar) (d : list (string * scalar))
    : list (string * scalar) :=
  match d with
  | [] => [(k, v)]
  | (k', v') :: d' =>
      if String.eqb k' k then (k', v) :: d' else (k', v') :: record_set k v d'
  end.

(** One record of [to_dict(orient="records")]: [dict(zip(columns, row))],
    where a label that comes twice keeps its last cell. *)
Definition to_record (cols : list string) (row : list scalar)
    : list (string * scalar) :=
  fold_left (fun d kv => record_set (fst kv) (snd kv) d)
            (imap (fun i col => (col, cell i row)) cols) [].

(** [df.head(8).fillna("").to_dict(orient="records")] *)
Definition preview_of (df : DataFrame) : list (list (string * scalar)) :=
  map (fun row => to_record (columns df) (map fillna_empty row))
      (take 8 (rows df)).

Record UploadResponse : Type := {
  up_file : string;
  up_columns : list string;
  up_preview : list (list (string * scalar));
}.

(** [stamp] is the clock read, formatted; [file] is [None] when the
    request carries no ["file"] part.  The result is the answer and the
    upload folder after the call. *)
Definition upload_file (stamp : string) (uploads : gmap string upload)
    (file : option FileStorage)
    : outcome UploadResponse * gmap string upload :=
  match file with
  | None => (Error (Msg "no file provided") 400, uploads)
  | Some f =>
      if String.eqb (fs_filename f) "" then
        (Error (Msg "empty filename") 400, uploads)
      else if negb (allowed_file (fs_filename f)) then
        (Error (Msg "unsupported file type") 400, uploads)
      else
        let filename := secure_filename (stamp +:+ "_" +:+ fs_filename f) in
        if String.eqb filename "" then (Unhandled IsADirectoryError, uploads)
        else
          let uploads' := <[filename := stored filename (fs_content f)]> uploads in
          match read_table (stored filename (fs_content f)) with
          | Ret df =>
              let cols := columns df in
              let preview := preview_of df in
              (Ok {| up_file := filename; up_columns := cols;
                     up_preview := preview |}, uploads')
          | Raise e => (Error (MsgExn "unable to read file: " e) 400, uploads')
          end
  end.

Record ColumnsResponse : Type := {
  col_columns : list string;
  col_rows : nat;
}.

(** A missing cell: the float nan. *)
Definition is_nan (c : scalar) : Prop :=
  match c with SFloat f => float_kind f = FNan | _ => False end.

Definition get_columns (uploads : gmap string upload) (file : option string)
    : outcome ColumnsResponse :=
  let filename := file in
  if py_not filename then Error (Msg "file required") 400
  else
    match uploads !! default "" filename with
    | None => Error (Msg "file not found") 404
    | Some f =>
        match read_table f with
        | Raise e => Unhandled e
        | Ret df => Ok {| col_columns := columns df; col_rows := df_len df |}
        end
    end.

End Uploads.

Arguments fs_filename {content} f.
Arguments fs_content {content} f.

(** *** Accounts: [register], [login], [logout] (lines 67-102) *)

(** A row of the [user] table. *)
Module User.
Record t : Type := {
  id : Z;
  username : string;
  password_hash : string;
  created_at : Z;
}.
End User.

Section Accounts.

(** werkzeug's [generate_password_hash], with the salt it draws as an
    argument, and [check_password_hash(pwhash, password)]. *)
Variable generate_password_hash : string -> string -> string.
Variable check_password_hash : string -> string -> bool.

(** The body of a register or login request: a JSON object whose
    [username] and [password] members are strings or absent, [None]
    being an absent or null member.  A body with a member of another
    type is outside the record: the code hands such a value to the
    database or to the hash functions, which raise. *)
Record Credentials : Type := {
  cred_username : option string;
  cred_password : option string;
}.

(** The session: nothing, or the [user_id] and the [username] of the
    signed-in user.  The project views read [user_id]. *)
Definition session_user (session : option (Z * string)) : option Z :=
  fst <$> session.

(** [User.query.filter_by(username=username).first()], over the rows
    in the order they were inserted. *)
Definition find_user (users : list User.t) (username : string) : option User.t :=
  List.find (fun u => String.eqb (User.username u) username) users.

(** The primary key of a new row: one more than the largest key. *)
Definition next_user_id (users : list User.t) : Z :=
  1 + foldr (fun u acc => Z.max (User.id u) acc) 0 users.

(** The result is the answer, the table and the session after the
    call. *)
Definition register (salt : string) (now : Z) (users : list User.t)
    (session : option (Z * string)) (data : Credentials)
    : outcome string * list User.t * option (Z * string) :=
  let username := cred_username data in
  let password := cred_password data in
  if py_not username || py_not password then
    (Error (Msg "username and password required") 400, users, session)
  else
    match find_user users (default "" username) with
    | Some _ => (Error (Msg "username exists") 400, users, session)
    | None =>
        let u := {| User.id := next_user_id users;
                    User.username := default "" username;
                    User.password_hash :=
                      generate_password_hash (default "" password) salt;
                    User.created_at := now |} in
        (Ok (User.username u), (users ++ [u])%list,
         Some (User.id u, User.username u))
    end.

Definition login (users : list User.t) (session : option (Z * string))
    (data : Credentials) : outcome string * option (Z * string) :=
  let username := cred_username data in
  let password := cred_password data in
  if py_not username || py_not password then
    (Error (Msg "username and password required") 400, session)
  else
    match find_user users (default "" username) with
    | None => (Error (Msg "invalid credentials") 400, session)
    | Some u =>
        if negb (check_password_hash (User.password_hash u) (default "" password))
        then (Error (Msg "invalid credentials") 400, session)
        else (Ok (User.username u), Some (User.id u, User.username u))
    end.

Definition logout (session : option (Z * string))
    : outcome unit * option (Z * string) :=
  (Ok tt, None).

End Accounts.

(** *** [list_projects] (lines 223-231) *)

Record ProjectSummary : Type := {
  sum_id : Z;
  sum_name : string;
  sum_file : string;
  sum_created_at : Z;
}.

(** One entry of the list: [{"id", "name", "file", "created_at"}]. *)
Definition summary (p : Project.t) : ProjectSummary :=
  {| sum_id := Project.id p; sum_name := Project.name p;
     sum_file := Project.file_path p; sum_created_at := Project.created_at p |}.

(** [p] comes no later than [q] in the list: it is at least as new. *)
Definition newer_first (p q : Project.t) : Prop :=
  Project.created_at q <= Project.created_at p.

#[global] Instance newer_first_dec p q : Decision (newer_first p q).
Proof. unfold newer_first. apply _. Defined.

(** The rows of the session's user, newest first.  The database leaves
    open the order of rows created at the same time; here it is what
    the merge sort makes of the order of the table. *)
Definition list_projects (session : option Z) (db : gmap Z Project.t)
    : outcome (list ProjectSummary) :=
  match session with
  | None => Error (Msg "authentication required") 401
  | Some uid =>
      let projs :=
        merge_sort newer_first
          (List.filter (fun p => Z.eqb (Project.owner_id p) uid)
                       (map snd (map_to_list db))) in
      Ok (map summary projs)
  end.

(** *** More examples *)

Section MoreExamples.

Definition id_name (s : string) : string := s.

(** Readers for examples: the content of a file is the table itself,
    which the CSV reader returns and the Excel reader refuses. *)
Definition csv_reader (df : DataFrame) : res DataFrame := Ret df.
Definition excel_refuses (df : DataFrame) : res DataFrame := Raise ParserError.

(** A hash for examples: the salt, a dollar sign and the password. *)
Definition plain_hash (password salt : string) : string :=
  salt +:+ "$" +:+ password.
Definition plain_check (pwhash password : string) : bool :=
  match split_first "$" pwhash with
  | Some (_, p) => String.eqb p password
  | None => false
  end.

Definition ann : User.t :=
  {| User.id := 1; User.username := "ann";
     User.password_hash := plain_hash "pw" "s1"; User.created_at := 0 |}.

Definition sales : Project.t :=
  {| Project.id := 1; Project.owner_id := 7; Project.name := "sales";
     Project.file_path := "f.csv"; Project.config_json := "{}";
     Project.created_at := 10 |}.

Definition stock : Project.t :=
  {| Project.id := 2; Project.owner_id := 7; Project.name := "stock";
     Project.file_path := "f.csv"; Project.config_json := "{}";
     Project.created_at := 20 |}.

Definition other : Project.t :=
  {| Project.id := 3; Project.owner_id := 8; Project.name := "other";
     Project.file_path := "g.csv"; Project.config_json := "{}";
     Project.created_at := 30 |}.

Definition bob : User.t :=
  {| User.id := 2; User.username := "bob";
     User.password_hash := plain_hash "pw2" "s2"; User.created_at := 5 |}.

(** [bob] under the hash that stores the password itself. *)
Definition plain_bob : User.t :=
  {| User.id := 2; User.username := "bob";
     User.password_hash := "pw2"; User.created_at := 5 |}.

(** The answer to the upload of [pets] as [pets.csv] at stamp [20240101]
    with a sanitizer that changes nothing. *)
Definition pets_uploaded : UploadResponse :=
  {| up_file := "20240101_pets.csv"; up_columns := ["A"; "B"];
     up_preview := preview_of pets |}.

(** The row that user 7 saves at time 20 for the name [.], the upload
    folder itself, in a table whose largest key is 1. *)
Definition here : Project.t :=
  {| Project.id := 2; Project.owner_id := 7; Project.name := "here";
     Project.file_path := "."; Project.config_json := "{}";
     Project.created_at := 20 |}.

(** The row that user 1 saves at time 10 in an empty table. *)
Definition sales_of_ann : Project.t :=
  {| Project.id := 1; Project.owner_id := 1; Project.name := "sales";
     Project.file_path := "f.csv"; Project.config_json := "{}";
     Project.created_at := 10 |}.

End MoreExamples.

(** * Facts about the chart pipeline *)

Section AppFacts.
Context `{L : PyLib}.

Lemma bind_Ret {A B : Type} (m : res A) (f : A -> res B) (b : B) :
  m ≫= f = Ret b -> exists a, m = Ret a /\ f a = Ret b.
Proof. destruct m as [a|e]; simpl; [eauto | discriminate]. Qed.

Ltac inv_bind H :=
  let a := fresh "a" in
  let Ha := fresh "Ha" in
  apply bind_Ret in H; destruct H as (a & Ha & H).

Lemma boolean_index_sublist {A : Type} (l : list A) (mask : list bool) :
  sublist (boolean_index l mask) l.
Proof.
  revert mask; induction l as [|a l IH]; intros [|[] mask]; simpl;
    try constructor; auto using sublist_nil_l.
Qed.

Lemma boolean_index_filter (cmp : pyfloat -> bool) (i : nat)
    (p : list scalar -> bool) (rs : list (list scalar)) :
  (forall r f, scalar_to_float (cell i r) = Ret f -> p r = cmp f) ->
  forall fs, astype_float (map (cell i) rs) = Ret fs ->
  boolean_index rs (map cmp fs) = List.filter p rs.
Proof.
  intros Hp. induction rs as [|r rs IH]; intros fs H; simpl in *.
  - injection H as <-. reflexivity.
  - destruct (scalar_to_float (cell i r)) as [f|] eqn:Hf; [|discriminate].
    simpl in H. destruct (astype_float (map (cell i) rs)) as [fs'|]; [|discriminate].
    injection H as <-. simpl. rewrite (Hp r f Hf), (IH fs' eq_refl). reflexivity.
Qed.

Lemma range_bound_Ret cmp df col v df' :
  range_bound cmp df col v = Ret df' ->
  exists i, index_of col (columns df) = Some i /\
    df' = {| columns := columns df;
             rows := List.filter (range_pass cmp i v) (rows df) |}.
Proof.
  unfold range_bound, getitem. intros H.
  destruct (index_of col (columns df)) as [i|]; [|discriminate].
  exists i; split; [reflexivity|]. simpl in H.
  destruct (astype_float (map (cell i) (rows df))) as [fs|] eqn:Hfs; [|discriminate].
  simpl in H. destruct (py_float v) as [b|] eqn:Hb; [|discriminate].
  injection H as <-. unfold df_mask. f_equal.
  apply (boolean_index_filter _ i); [|exact Hfs].
  intros r f Hf. unfold range_pass. rewrite Hf, Hb. reflexivity.
Qed.

Lemma text_contains_Ret df col txt df' :
  text_contains df col txt = Ret df' ->
  exists i, index_of col (columns df) = Some i /\
    df' = {| columns := columns df;
             rows := List.filter (text_pass i txt) (rows df) |}.
Proof.
  unfold text_contains, getitem. intros H.
  destruct (index_of col (columns df)) as [i|]; [|discriminate].
  exists i; split; [reflexivity|]. simpl in H.
  destruct txt as [| | | |pat| |]; try discriminate.
  destruct (re_compile_ignorecase pat) as [found|] eqn:Hc; [|discriminate].
  injection H as <-. unfold df_mask, astype_str. f_equal.
  assert (Hp : forall r, text_pass i (JStr pat) r
                         = str_contains found (astype_str_cell (cell i r))).
  { intros r. unfold text_pass. by rewrite Hc. }
  induction (rows df) as [|r rs IH]; [reflexivity|].
  cbn [map boolean_index List.filter]. rewrite Hp, IH. reflexivity.
Qed.

Lemma filter_true_id {A : Type} (l : list A) : List.filter (fun _ => true) l = l.
Proof. induction l; simpl; congruence. Qed.

Lemma filter_filter_andb {A : Type} (p q : A -> bool) (l : list A) :
  List.filter q (List.filter p l) = List.filter (fun a => p a && q a) l.
Proof.
  induction l as [|a l IH]; simpl; [reflexivity|].
  destruct (p a); simpl; [destruct (q a)|]; rewrite IH; reflexivity.
Qed.

Lemma df_eta (df : DataFrame) : {| columns := columns df; rows := rows df |} = df.
Proof. destruct df; reflexivity. Qed.

(** Applying one item keeps the labels and keeps the rows its
    predicate lets through. *)
Lemma apply_filter_Ret df col fconf df' :
  apply_filter df col fconf = Ret df' ->
  df' = {| columns := columns df;
           rows := List.filter (item_pass (columns df) (col, fconf)) (rows df) |}.
Proof.
  unfold apply_filter, item_pass, has_column. intros H.
  destruct (index_of col (columns df)) as [i|] eqn:Hi; simpl in H.
  2:{ injection H as <-. rewrite filter_true_id. symmetry; apply df_eta. }
  destruct (py_get fconf "type") as [ty|]; [simpl in H|discriminate].
  destruct (json_is_str ty "range").
  - destruct (py_get fconf "min") as [mn|]; [simpl in H|discriminate].
    destruct (py_get fconf "max") as [mx|]; [simpl in H|discriminate].
    inv_bind H.
    assert (a = {| columns := columns df;
                   rows := List.filter (opt_pass (range_pass float_ge i) mn) (rows df) |})
      as ->.
    { destruct mn as [v|]; simpl.
      - apply range_bound_Ret in Ha as (i' & Hi' & ->).
        rewrite Hi in Hi'. injection Hi' as <-. reflexivity.
      - injection Ha as <-. rewrite filter_true_id. symmetry; apply df_eta. }
    rewrite <- filter_filter_andb.
    destruct mx as [v|]; simpl.
    + apply range_bound_Ret in H as (i' & Hi' & ->). simpl in *.
      rewrite Hi in Hi'. injection Hi' as <-. reflexivity.
    + injection H as <-. simpl. rewrite filter_true_id. reflexivity.
  - destruct (json_is_str ty "text").
    + destruct (py_get_default fconf "text" (JStr "")) as [txt|]; [simpl in H|discriminate].
      destruct (truthy txt).
      * apply text_contains_Ret in H as (i' & Hi' & ->).
        rewrite Hi in Hi'. injection Hi' as <-. reflexivity.
      * injection H as <-. rewrite filter_true_id. symmetry; apply df_eta.
    + injection H as <-. rewrite filter_true_id. symmetry; apply df_eta.
Qed.

Lemma apply_items_Ret items : forall df df',
  apply_items df items = Ret df' ->
  df' = {| columns := columns df;
           rows := List.filter (items_pass (columns df) items) (rows df) |}.
Proof.
  induction items as [|[col fconf] items IH]; intros df df' H; simpl in H.
  - injection H as <-. unfold items_pass; simpl. rewrite filter_true_id.
    symmetry; apply df_eta.
  - inv_bind H. apply apply_filter_Ret in Ha as ->.
    apply IH in H as ->. simpl. rewrite filter_filter_andb. reflexivity.
Qed.

Lemma apply_filters_Ret df filters df' :
  apply_filters df filters = Ret df' ->
  exists items, filters = JObj items /\
    df' = {| columns := columns df;
             rows := List.filter (items_pass (columns df) items) (rows df) |}.
Proof.
  unfold apply_filters. destruct filters; simpl; try discriminate.
  intros H. eexists; split; [reflexivity|]. by apply apply_items_Ret.
Qed.

Lemma filter_sublist {A : Type} (p : A -> bool) (l : list A) :
  sublist (List.filter p l) l.
Proof.
  induction l as [|a l IH]; simpl; [constructor|].
  destruct (p a); by constructor.
Qed.

Lemma apply_items_app df a b :
  apply_items df (a ++ b) = apply_items df a ≫= fun d => apply_items d b.
Proof.
  revert df; induction a as [|[col fconf] a IH]; intros df; simpl; [reflexivity|].
  destruct (apply_filter df col fconf) as [d|e]; simpl; [apply IH | reflexivity].
Qed.

Lemma apply_items_columns items df df' :
  apply_items df items = Ret df' -> columns df' = columns df.
Proof. intros H. apply apply_items_Ret in H as ->. reflexivity. Qed.

Lemma apply_filters_columns df filters df' :
  apply_filters df filters = Ret df' -> columns df' = columns df.
Proof. intros H. apply apply_filters_Ret in H as (items & _ & ->). reflexivity. Qed.

Lemma astype_float_Raise (s : list scalar) (c : scalar) (e0 : exn) :
  c ∈ s -> scalar_to_float c = Raise e0 -> exists e, astype_float s = Raise e.
Proof.
  intros Hin Hc. induction Hin as [c s|c c' s Hin IH]; simpl.
  - rewrite Hc. simpl. eauto.
  - destruct (scalar_to_float c'); simpl; [|eauto].
    destruct (IH Hc) as [e ->]. simpl. eauto.
Qed.

Lemma range_bound_Raise cmp df col v i r e0 :
  index_of col (columns df) = Some i -> r ∈ rows df ->
  scalar_to_float (cell i r) = Raise e0 ->
  exists e, range_bound cmp df col v = Raise e.
Proof.
  intros Hi Hr He. unfold range_bound, getitem. rewrite Hi. simpl.
  destruct (astype_float_Raise (map (cell i) (rows df)) (cell i r) e0) as [e ->];
    [by apply list_elem_of_fmap_2 | done | simpl; eauto].
Qed.

(** ** C1: order of application *)

(** Where the two orders finish, they agree: when applying [F1] then
    [F2] and applying [F2] then [F1] both finish without raising, the
    two orders give the same table, the same labels and the same rows
    in the same order. *)
Theorem filters_commute_when_both_succeed df F1 F2 d12 d21 :
  then_filters df F1 F2 = Ret d12 ->
  then_filters df F2 F1 = Ret d21 ->
  d12 = d21.
Proof.
  unfold then_filters. intros H12 H21.
  inv_bind H12. inv_bind H21.
  apply apply_filters_Ret in Ha as (i1 & -> & ->).
  apply apply_filters_Ret in Ha0 as (i2 & -> & ->).
  apply apply_filters_Ret in H12 as (i2' & [= <-] & ->).
  apply apply_filters_Ret in H21 as (i1' & [= <-] & ->).
  simpl. f_equal. rewrite !filter_filter_andb.
  apply List.filter_ext. intros row. apply andb_comm.
Qed.

(** The predicates of one specification, in two orders. *)
Lemma apply_items_permutation df items items' d d' :
  items ≡ₚ items' ->
  apply_items df items = Ret d -> apply_items df items' = Ret d' -> d = d'.
Proof.
  intros Hp H H'. apply apply_items_Ret in H as ->. apply apply_items_Ret in H' as ->.
  f_equal. apply List.filter_ext. intros row. unfold items_pass.
  apply eq_true_iff_eq. rewrite !forallb_forall.
  split; intros Hall item Hin; apply Hall; apply list_elem_of_In;
    apply list_elem_of_In in Hin; [by rewrite Hp | by rewrite <- Hp].
Qed.

(** ** C2: a range predicate over a cell that does not convert *)

(** C2, as amended.  A range predicate that gives a [min] or a [max],
    on a column of the table, reached with a row still present whose
    cell does not convert to a float: the request is answered with
    status 400 and a filtering error, and no arrays. *)
Theorem bounded_range_conversion_failure_fails_request
    uploads data file xc yc df pre col fconf post df' i mn mx r e0 :
  req_file data = Some file -> file <> "" ->
  req_xcol data = Some xc -> xc <> "" ->
  req_ycol data = Some yc -> yc <> "" ->
  uploads !! file = Some (Readable df) ->
  req_filters data = Some (JObj (pre ++ (col, fconf) :: post)) ->
  apply_items df pre = Ret df' ->
  index_of col (columns df) = Some i ->
  py_get fconf "type" = Ret (Some (JStr "range")) ->
  py_get fconf "min" = Ret mn ->
  py_get fconf "max" = Ret mx ->
  mn <> None \/ mx <> None ->
  r ∈ rows df' ->
  scalar_to_float (cell i r) = Raise e0 ->
  exists e, generate_chart uploads data = Error (MsgExn "filtering error: " e) 400.
Proof.
  intros Hf Hfn Hx Hxn Hy Hyn Hup Hfil Hpre Hi Hty Hmn Hmx Hb Hr He.
  unfold generate_chart. rewrite Hf, Hx, Hy, Hfil. simpl.
  apply String.eqb_neq in Hfn, Hxn, Hyn. rewrite Hfn, Hxn, Hyn. simpl.
  rewrite Hup. simpl. unfold apply_filters. simpl.
  cut (exists e, apply_items df (pre ++ (col, fconf) :: post) = Raise e).
  { intros [e ->]. eauto. }
  rewrite apply_items_app, Hpre. simpl.
  cut (exists e, apply_filter df' col fconf = Raise e).
  { intros [e ->]. simpl. eauto. }
  pose proof (apply_items_columns _ _ _ Hpre) as Hcols.
  unfold apply_filter, has_column. rewrite Hcols, Hi, Hty. simpl.
  rewrite Hmn, Hmx. simpl.
  rewrite <- Hcols in Hi.
  destruct mn as [v|].
  - destruct (range_bound_Raise float_ge df' col v i r e0 Hi Hr He) as [e ->].
    simpl. eauto.
  - simpl. destruct mx as [v|]; [|by destruct Hb].
    apply (range_bound_Raise float_le df' col v i r e0 Hi Hr He).
Qed.

(** ** C3: an absent x or y column *)

(** C3, what the code does.  When the filters have passed and the x
    column or the y column is not a label of the table, [df[xcol]] or
    [df[ycol]] raises [KeyError] outside any [try]: the exception leaves
    the view, and no error body with a client status is returned. *)
Theorem absent_series_column_is_unhandled uploads data file xc yc df df' :
  req_file data = Some file -> file <> "" ->
  req_xcol data = Some xc -> xc <> "" ->
  req_ycol data = Some yc -> yc <> "" ->
  uploads !! file = Some (Readable df) ->
  apply_filters df (default (JObj []) (req_filters data)) = Ret df' ->
  has_column df xc = false \/ has_column df yc = false ->
  generate_chart uploads data = Unhandled KeyError.
Proof.
  intros Hf Hfn Hx Hxn Hy Hyn Hup Hfil Habs.
  unfold generate_chart. rewrite Hf, Hx, Hy. simpl.
  apply String.eqb_neq in Hfn, Hxn, Hyn. rewrite Hfn, Hxn, Hyn. simpl.
  rewrite Hup. simpl. rewrite Hfil.
  apply apply_filters_columns in Hfil.
  unfold getitem, has_column in *. rewrite Hfil.
  destruct (index_of xc (columns df)); [|reflexivity].
  destruct (index_of yc (columns df)); [|reflexivity].
  by destruct Habs.
Qed.

(** ** C7: the series *)

(** What a successful [generate_chart] returns: the x and y columns of
    the filtered table.  The rows kept are a sublist of the table's
    rows (same order), [x] holds what [astype(str)] makes of the x cell
    of each kept row, [y] holds the y cell itself, and both have the
    length reported in [rows]. *)
Theorem chart_series_are_parallel uploads data r :
  generate_chart uploads data = Ok r ->
  exists file xc yc df df' i j,
    req_file data = Some file /\ req_xcol data = Some xc /\
    req_ycol data = Some yc /\
    uploads !! file = Some (Readable df) /\
    apply_filters df (default (JObj []) (req_filters data)) = Ret df' /\
    sublist (rows df') (rows df) /\
    index_of xc (columns df) = Some i /\
    index_of yc (columns df) = Some j /\
    x r = map (fun row => astype_str_cell (cell i row)) (rows df') /\
    y r = map (cell j) (rows df') /\
    nrows r = length (rows df') /\
    length (x r) = nrows r /\ length (y r) = nrows r.
Proof.
  unfold generate_chart. intros H.
  destruct (req_file data) as [file|]; [|discriminate].
  destruct (req_xcol data) as [xc|]; [|by rewrite orb_true_r in H].
  destruct (req_ycol data) as [yc|]; [|by rewrite !orb_true_r in H].
  destruct (_ || _ || _); [discriminate|]. simpl in H.
  destruct (uploads !! file) as [[df|e]|] eqn:Hup; try discriminate. simpl in H.
  destruct (apply_filters df _) as [df'|] eqn:Hfil; [|discriminate].
  pose proof (apply_filters_columns _ _ _ Hfil) as Hcols.
  unfold getitem in H. rewrite Hcols in H.
  destruct (index_of xc (columns df)) as [i|] eqn:Hi; [|discriminate].
  destruct (index_of yc (columns df)) as [j|] eqn:Hj; [|discriminate].
  injection H as <-.
  assert (Hsub : sublist (rows df') (rows df)).
  { apply apply_filters_Ret in Hfil as (items & _ & ->). simpl. apply filter_sublist. }
  exists file, xc, yc, df, df', i, j. simpl.
  unfold astype_str, df_len. rewrite map_map, !length_map.
  split_and!; done.
Qed.

(** ** C8: the empty specification *)

(** C8.  The Filter Engine with an empty specification returns the
    table it was given; and a request whose [filters] member is [{}] or
    absent, over a table that has the x and y columns, gets every row,
    in the table's order, and the table's row count. *)
Theorem empty_filters_identity df :
  apply_filters df (JObj []) = Ret df /\
  forall uploads data file xc yc i j,
    req_file data = Some file -> file <> "" ->
    req_xcol data = Some xc -> xc <> "" ->
    req_ycol data = Some yc -> yc <> "" ->
    uploads !! file = Some (Readable df) ->
    req_filters data = None \/ req_filters data = Some (JObj []) ->
    index_of xc (columns df) = Some i ->
    index_of yc (columns df) = Some j ->
    generate_chart uploads data =
      Ok {| x := map (fun row => astype_str_cell (cell i row)) (rows df);
            y := map (cell j) (rows df);
            nrows := length (rows df) |}.
Proof.
  split; [reflexivity|].
  intros uploads data file xc yc i j Hf Hfn Hx Hxn Hy Hyn Hup Hfil Hi Hj.
  unfold generate_chart. rewrite Hf, Hx, Hy. simpl.
  apply String.eqb_neq in Hfn, Hxn, Hyn. rewrite Hfn, Hxn, Hyn. simpl.
  rewrite Hup. simpl.
  assert (default (JObj []) (req_filters data) = JObj []) as ->
    by (destruct Hfil as [-> | ->]; reflexivity).
  simpl. unfold getitem. rewrite Hi, Hj. unfold astype_str, df_len.
  by rewrite map_map.
Qed.

(** ** C9: the text predicate *)

(** What the text predicate computes: with a pattern that compiles, the
    rows kept are those on whose cell text the compiled pattern's
    search succeeds. *)
Lemma text_filter_is_pattern_search df col fconf pat found i :
  index_of col (columns df) = Some i ->
  py_get fconf "type" = Ret (Some (JStr "text")) ->
  py_get_default fconf "text" (JStr "") = Ret (JStr pat) ->
  pat <> "" ->
  re_compile_ignorecase pat = Some found ->
  apply_filter df col fconf =
    Ret {| columns := columns df;
           rows := List.filter
                     (fun row => str_contains found (astype_str_cell (cell i row)))
                     (rows df) |}.
Proof.
  intros Hi Hty Htxt Hne Hc.
  destruct (apply_filter df col fconf) as [d|e] eqn:H.
  - apply apply_filter_Ret in H as ->. f_equal. f_equal.
    apply List.filter_ext. intros row. unfold item_pass.
    rewrite Hi, Hty, Htxt. simpl. apply String.eqb_neq in Hne. rewrite Hne. simpl.
    by rewrite Hc.
  - exfalso. revert H. unfold apply_filter, has_column, text_contains, getitem.
    rewrite Hi, Hty. simpl. rewrite Htxt. simpl.
    apply String.eqb_neq in Hne. rewrite Hne. simpl.
    by rewrite Hc.
Qed.

(** An empty or absent text is no predicate at all. *)
Lemma empty_text_is_noop df col fconf txt :
  py_get fconf "type" = Ret (Some (JStr "text")) ->
  py_get_default fconf "text" (JStr "") = Ret txt ->
  truthy txt = false ->
  apply_filter df col fconf = Ret df.
Proof.
  intros Hty Htxt Hfalse. unfold apply_filter.
  destruct (negb (has_column df col)); [reflexivity|].
  rewrite Hty. simpl. rewrite Htxt. simpl. by rewrite Hfalse.
Qed.

(** ** C10: a range predicate without bounds *)

(** C10.  A range predicate with neither [min] nor [max] converts
    nothing and keeps every row, whatever the column holds: applying it
    returns the table it was given, and a specification gives the same
    result with the predicate and without it. *)
Theorem unbounded_range_is_noop df col fconf :
  py_get fconf "type" = Ret (Some (JStr "range")) ->
  py_get fconf "min" = Ret None ->
  py_get fconf "max" = Ret None ->
  apply_filter df col fconf = Ret df /\
  forall pre post,
    apply_filters df (JObj (pre ++ (col, fconf) :: post)) =
    apply_filters df (JObj (pre ++ post)).
Proof.
  intros Hty Hmn Hmx.
  assert (Hnoop : forall d, apply_filter d col fconf = Ret d).
  { intros d. unfold apply_filter. destruct (negb (has_column d col)); [reflexivity|].
    rewrite Hty. simpl. rewrite Hmn, Hmx. reflexivity. }
  split; [apply Hnoop|].
  intros pre post. unfold apply_filters. simpl. rewrite !apply_items_app.
  destruct (apply_items df pre) as [d|e]; simpl; [|reflexivity].
  by rewrite Hnoop.
Qed.

End AppFacts.

(** ** The facts at concrete inputs *)

Lemma filters_commute_witness :
  let FA := JObj [("A", range_min (JInt 2))] in
  let FB := JObj [("B", text_of "CAT")] in
  let d := {| columns := ["A"; "B"]; rows := [[SInt 10; SStr "cattle"]] |} in
  then_filters pets FA FB = Ret d /\ then_filters pets FB FA = Ret d /\ d = d.
Proof.
  intros FA FB d.
  split; [reflexivity|]. split; [reflexivity|].
  apply (filters_commute_when_both_succeed pets FA FB d d); reflexivity.
Defined.

(** C1.  The code breaks the claim over the rows [{A:1,B:"x"},
    {A:5,B:"3"}].  The range predicate on [A] followed by the range
    predicate on [B] keeps the second row, and the request is answered
    with it.  With the range predicate on [B] first, the conversion of
    the cell ["x"] raises: the [except] branch, whose comment says that
    a filter failing on a conversion is skipped, answers the request
    with status 400 and no rows.  The same holds for the two predicates
    as two specifications applied one after the other. *)
Theorem filter_order_changes_outcome :
  let FA := JObj [("A", range_min (JInt 2))] in
  let FB := JObj [("B", range_min (JInt 1))] in
  let AB := JObj [("A", range_min (JInt 2)); ("B", range_min (JInt 1))] in
  let BA := JObj [("B", range_min (JInt 1)); ("A", range_min (JInt 2))] in
  let kept := {| columns := ["A"; "B"]; rows := [[SInt 5; SStr "3"]] |} in
  then_filters mixed FA FB = Ret kept /\
  then_filters mixed FB FA = Raise ValueError /\
  then_filters mixed FA FB <> then_filters mixed FB FA /\
  apply_filters mixed AB = Ret kept /\
  apply_filters mixed BA = Raise ValueError /\
  generate_chart {[ "f.csv" := Readable mixed ]}
    (chart_request "f.csv" "A" "B" (Some AB))
  = Ok {| x := [SStr "5"]; y := [SStr "3"]; nrows := 1 |} /\
  generate_chart {[ "f.csv" := Readable mixed ]}
    (chart_request "f.csv" "A" "B" (Some BA))
  = Error (MsgExn "filtering error: " ValueError) 400.
Proof.
  intros FA FB AB BA kept.
  assert (H1 : then_filters mixed FA FB = Ret kept) by reflexivity.
  assert (H2 : then_filters mixed FB FA = Raise ValueError) by reflexivity.
  split_and!; try reflexivity. rewrite H1, H2. discriminate.
Qed.

(** C7.  The code breaks the claim at a table with a missing x cell.
    With a pandas whose [astype(str)] leaves a missing cell missing,
    the x array holds the nan of the missing cell, which is no text,
    next to the texts of the other cells: the text itself for a string,
    [repr] for a float, the decimal digits for an integer, [True] and
    [False] for booleans.  The lengths, the order, the row count and
    the y array are as the claim says.  With a pandas that makes the
    text [nan] of a missing cell, every x element is a text. *)
Theorem missing_x_cell_is_not_rendered :
  let nan := SFloat (L := NanLib None) None in
  let ys := [SInt 7; SInt 8] in
  let uploads kept : gmap string upload := {[ "f.csv" := Readable (gaps kept) ]} in
  missing nan = true /\
  generate_chart (uploads None) (gaps_request None "A" "C")
  = Ok {| x := [SStr "ann"; nan]; y := ys; nrows := 2 |} /\
  generate_chart (uploads None) (gaps_request None "B" "C")
  = Ok {| x := [SStr "1.0"; nan]; y := ys; nrows := 2 |} /\
  generate_chart (uploads None) (gaps_request None "C" "C")
  = Ok {| x := [SStr "7"; SStr "8"]; y := ys; nrows := 2 |} /\
  generate_chart (uploads None) (gaps_request None "D" "C")
  = Ok {| x := [SStr "True"; SStr "False"]; y := ys; nrows := 2 |} /\
  generate_chart (uploads (Some "nan")) (gaps_request (Some "nan") "A" "C")
  = Ok {| x := [SStr "ann"; SStr "nan"]; y := [SInt 7; SInt 8]; nrows := 2 |}.
Proof. split_and!; reflexivity. Qed.

(** C2, as stated, fails.  Column [B] of the table holds ["cat"], which
    does not convert to a float, and the specification has a range
    predicate on [B]; the predicate gives no bound, and the request
    succeeds with every row. *)
Lemma unbounded_range_request_succeeds :
  getitem pets "B" = Ret [SStr "cat"; SStr "dog"; SStr "cattle"] /\
  scalar_to_float (SStr "cat") = Raise ValueError /\
  generate_chart {[ "f.csv" := Readable pets ]}
    (chart_request "f.csv" "A" "B" (Some (JObj [("B", JObj [("type", JStr "range")])])))
  = Ok {| x := [SStr "1"; SStr "5"; SStr "10"];
          y := [SStr "cat"; SStr "dog"; SStr "cattle"];
          nrows := 3 |}.
Proof. split_and!; reflexivity. Qed.

Lemma bounded_range_conversion_failure_witness :
  exists e,
    generate_chart {[ "f.csv" := Readable mixed ]}
      (chart_request "f.csv" "A" "B"
         (Some (JObj [("A", range_min (JInt 0));
                      ("B", JObj [("type", JStr "range"); ("max", JInt 4)])])))
    = Error (MsgExn "filtering error: " e) 400.
Proof.
  apply (bounded_range_conversion_failure_fails_request
           {[ "f.csv" := Readable mixed ]} _ "f.csv" "A" "B" mixed
           [("A", range_min (JInt 0))] "B"
           (JObj [("type", JStr "range"); ("max", JInt 4)]) [] mixed 1%nat
           None (Some (JInt 4)) [SInt 1; SStr "x"] ValueError);
    try reflexivity; try discriminate.
  - right; discriminate.
  - apply list_elem_of_here.
Defined.

Lemma absent_series_column_witness :
  generate_chart {[ "f.csv" := Readable pets ]}
    (chart_request "f.csv" "Z" "B" None) = Unhandled KeyError.
Proof.
  apply (absent_series_column_is_unhandled _ _ "f.csv" "Z" "B" pets pets);
    try reflexivity; try discriminate.
  left. reflexivity.
Defined.

Lemma chart_series_witness :
  let r := {| x := [SStr "5"; SStr "10"]; y := [SStr "dog"; SStr "cattle"]; nrows := 2 |} in
  generate_chart {[ "f.csv" := Readable pets ]}
    (chart_request "f.csv" "A" "B" (Some (JObj [("A", range_min (JStr "2"))])))
  = Ok r /\
  length (x r) = nrows r /\ length (y r) = nrows r.
Proof.
  intros r.
  assert (H : generate_chart {[ "f.csv" := Readable pets ]}
    (chart_request "f.csv" "A" "B" (Some (JObj [("A", range_min (JStr "2"))])))
    = Ok r) by reflexivity.
  split; [exact H|].
  destruct (chart_series_are_parallel _ _ _ H)
    as (_ & _ & _ & _ & _ & _ & _ & _ & _ & _ & _ & _ & _ & _ & _ & _ & _ & _ & Hx & Hy).
  split; [exact Hx | exact Hy].
Defined.

Lemma empty_filters_witness :
  generate_chart {[ "f.csv" := Readable pets ]}
    (chart_request "f.csv" "A" "B" (Some (JObj [])))
  = Ok {| x := [SStr "1"; SStr "5"; SStr "10"];
          y := [SStr "cat"; SStr "dog"; SStr "cattle"];
          nrows := 3 |}.
Proof.
  apply (proj2 (empty_filters_identity pets) _ _ "f.csv" "A" "B" 0%nat 1%nat);
    try reflexivity; try discriminate.
  right. reflexivity.
Defined.

(** C9, at inputs where the code and the claim part.  The text [a.c]
    keeps the row whose cell is ["abc"], which does not contain [a.c];
    and the text [(] fails the request with a filtering error, where
    the claim lets through the rows that contain a parenthesis. *)
Lemma text_pattern_is_regular_expression :
  apply_filters letters (JObj [("B", text_of "a.c")])
    = Ret {| columns := ["B"]; rows := [[SStr "abc"]; [SStr "a.c"]] |} /\
  contains_ci "a.c" "abc" = false /\
  generate_chart {[ "f.csv" := Readable letters ]}
    (chart_request "f.csv" "B" "B" (Some (JObj [("B", text_of "(")])))
  = Error (MsgExn "filtering error: " ReError) 400.
Proof. split_and!; reflexivity. Qed.

Lemma unbounded_range_witness :
  apply_filter pets "B" (JObj [("type", JStr "range")]) = Ret pets.
Proof.
  apply (unbounded_range_is_noop pets "B" (JObj [("type", JStr "range")]));
    reflexivity.
Defined.

(** * Facts about the export store *)

Section ExportFacts.
Variable b64decode : string -> res string.
Variable secure_filename : string -> string.

Lemma split_first_None sep s :
  split_first sep s = None <-> sep ∉ list_ascii_of_string s.
Proof.
  induction s as [|c s IH]; simpl.
  - split; [intros _; apply not_elem_of_nil | done].
  - rewrite not_elem_of_cons. destruct (Ascii.eqb_spec c sep) as [->|Hne].
    + split; [discriminate | intros [? _]; done].
    + destruct (split_first sep s) as [[h t]|].
      * split; [discriminate|]. intros [_ Hs]. by apply IH in Hs.
      * split; [|done]. intros _. split; [congruence | by apply IH].
Qed.

(** C4, what the code does.  A non-empty [dataURL] without a comma makes
    the unpacking of [split(",", 1)] raise [ValueError], and a payload
    that [b64decode] rejects makes it raise; neither is caught.  The
    exception leaves the view, no error body with a client status is
    returned, and the export folder is unchanged. *)
Theorem save_png_malformed_input_is_unhandled default_name exports data url :
  png_dataURL data = Some url -> url <> "" ->
  ","%char ∉ list_ascii_of_string url \/
  (exists header payload e,
     split_first "," url = Some (header, payload) /\ b64decode payload = Raise e) ->
  exists e,
    save_png b64decode secure_filename default_name exports data
    = (Unhandled e, exports).
Proof.
  intros Hurl Hne Hbad. unfold save_png. rewrite Hurl. simpl.
  apply String.eqb_neq in Hne. rewrite Hne. unfold split_comma_once.
  destruct Hbad as [Hno | (header & payload & e & Hsplit & Hdec)].
  - apply split_first_None in Hno. rewrite Hno. simpl. eauto.
  - rewrite Hsplit. simpl. rewrite Hdec. eauto.
Qed.

End ExportFacts.

Lemma save_png_malformed_input_witness :
  exists e,
    save_png (fun _ => Raise BinasciiError) (fun n => n) "chart.png" ∅
      {| png_name := None; png_dataURL := Some "QQ==" |}
    = (Unhandled e, ∅).
Proof.
  apply (save_png_malformed_input_is_unhandled _ _ "chart.png" ∅ _ "QQ==");
    [reflexivity | discriminate |].
  left. apply split_first_None. reflexivity.
Defined.

(** * Facts about the encoder and the decoder of JSON *)

Section JsonFacts.
Context `{L : PyLib}.
Local Open Scope list_scope.

(** ** Numbers *)

Lemma terminated_no_digit_head rest : terminated rest -> no_digit_head rest.
Proof. destruct rest; simpl; tauto. Qed.

Lemma span_digits_split s d r : span_digits s = (d, r) -> s = d ++ r.
Proof.
  revert d r; induction s as [|c s IH]; intros d r; simpl.
  - by intros [= <- <-].
  - destruct (is_digit c); [|by intros [= <- <-]].
    destruct (span_digits s) as [d' r']. intros [= <- <-].
    simpl. f_equal. by apply IH.
Qed.

Lemma span_digits_ext s d r rest :
  span_digits s = (d, r) -> (r = [] -> no_digit_head rest) ->
  span_digits (s ++ rest) = (d, r ++ rest).
Proof.
  revert d r; induction s as [|c s IH]; intros d r; simpl.
  - intros [= <- <-] Hrest. simpl. destruct rest as [|c rest]; [done|].
    simpl in *. by rewrite (Hrest eq_refl).
  - destruct (is_digit c); [|by intros [= <- <-]].
    destruct (span_digits s) as [d' r']. intros [= <- <-] Hrest.
    by rewrite (IH d' r' eq_refl Hrest).
Qed.

Lemma scan_unsigned_split sign s ip s1 :
  scan_unsigned sign s = Some (ip, s1) -> sign ++ s = ip ++ s1.
Proof.
  unfold scan_unsigned. destruct s as [|c s2]; [done|].
  destruct (Ascii.eqb c "0").
  - intros [= <- <-]. by rewrite <- app_assoc.
  - destruct (is_digit c); [|done].
    destruct (span_digits s2) as [ds s3] eqn:Hs. intros [= <- <-].
    apply span_digits_split in Hs as ->. by rewrite <- app_assoc.
Qed.

Lemma scan_unsigned_ext sign s ip s1 rest :
  scan_unsigned sign s = Some (ip, s1) -> (s1 = [] -> no_digit_head rest) ->
  scan_unsigned sign (s ++ rest) = Some (ip, s1 ++ rest).
Proof.
  unfold scan_unsigned. destruct s as [|c s2]; [done|]. simpl.
  destruct (Ascii.eqb c "0"); [by intros [= <- <-]|].
  destruct (is_digit c); [|done].
  destruct (span_digits s2) as [ds s3] eqn:Hs. intros [= <- <-] Hrest.
  by rewrite (span_digits_ext _ _ _ rest Hs Hrest).
Qed.

Lemma scan_integer_split t ip s1 : scan_integer t = Some (ip, s1) -> t = ip ++ s1.
Proof.
  unfold scan_integer. destruct t as [|c t]; [done|].
  destruct (Ascii.eqb c "-"); intros H.
  - by apply (scan_unsigned_split [c] t).
  - by apply (scan_unsigned_split [] (c :: t)).
Qed.

Lemma scan_integer_ext t ip s1 rest :
  scan_integer t = Some (ip, s1) -> (s1 = [] -> no_digit_head rest) ->
  scan_integer (t ++ rest) = Some (ip, s1 ++ rest).
Proof.
  unfold scan_integer. destruct t as [|c t]; [done|]. simpl.
  destruct (Ascii.eqb c "-"); intros H Hrest.
  - by apply scan_unsigned_ext.
  - by apply (scan_unsigned_ext [] (c :: t)).
Qed.

Lemma scan_exp_split s ex r : scan_exp s = (ex, r) -> s = ex ++ r.
Proof.
  unfold scan_exp. destruct s as [|e s']; [by intros [= <- <-]|].
  destruct (_ || _); [|by intros [= <- <-]].
  destruct s' as [|c t].
  - simpl. by intros [= <- <-].
  - destruct (Ascii.eqb c "-" || Ascii.eqb c "+").
    + destruct (span_digits t) as [[|d ds] r'] eqn:Hs; intros [= <- <-]; [done|].
      apply span_digits_split in Hs as ->. done.
    + destruct (span_digits (c :: t)) as [[|d ds] r'] eqn:Hs; intros [= <- <-]; [done|].
      apply span_digits_split in Hs as ->. done.
Qed.

Lemma scan_exp_ext s ex rest :
  scan_exp s = (ex, []) -> terminated rest -> scan_exp (s ++ rest) = (ex, rest).
Proof.
  unfold scan_exp. intros H Hrest.
  destruct s as [|e s'].
  - injection H as <-. simpl. destruct rest as [|c rest]; [done|].
    destruct Hrest as (_ & _ & He1 & He2).
    apply Ascii.eqb_neq in He1, He2. by rewrite He1, He2.
  - simpl. destruct (_ || _); [|done].
    apply terminated_no_digit_head in Hrest.
    destruct s' as [|c t]; [done|]. simpl.
    destruct (Ascii.eqb c "-" || Ascii.eqb c "+").
    + destruct (span_digits t) as [[|d ds] r'] eqn:Hs; [done|].
      injection H as <- ->.
      by rewrite (span_digits_ext _ _ _ rest Hs (fun _ => Hrest)).
    + destruct (span_digits (c :: t)) as [[|d ds] r'] eqn:Hs; [done|].
      injection H as <- ->.
      change (c :: t ++ rest) with ((c :: t) ++ rest).
      by rewrite (span_digits_ext _ _ _ rest Hs (fun _ => Hrest)).
Qed.

Lemma scan_frac_split s fr r : scan_frac s = (fr, r) -> s = fr ++ r.
Proof.
  unfold scan_frac. destruct s as [|c s']; [by intros [= <- <-]|].
  destruct (Ascii.eqb c "."); [|by intros [= <- <-]].
  destruct (span_digits s') as [[|d ds] r'] eqn:Hs; intros [= <- <-]; [done|].
  apply span_digits_split in Hs as ->. done.
Qed.

Lemma scan_frac_ext s fr s2 ex rest :
  scan_frac s = (fr, s2) -> scan_exp s2 = (ex, []) -> terminated rest ->
  scan_frac (s ++ rest) = (fr, s2 ++ rest).
Proof.
  unfold scan_frac. intros H Hex Hrest.
  destruct s as [|c s'].
  - injection H as <- <-. simpl. destruct rest as [|c rest]; [done|].
    destruct Hrest as (_ & Hp & _). apply Ascii.eqb_neq in Hp. by rewrite Hp.
  - simpl. destruct (Ascii.eqb_spec c ".") as [->|Hc]; [|by injection H as <- <-].
    destruct (span_digits s') as [[|d ds] r'] eqn:Hs.
    + injection H as <- <-. by vm_compute in Hex.
    + injection H as <- <-.
      by rewrite (span_digits_ext _ _ _ rest Hs
                    (fun _ => terminated_no_digit_head _ Hrest)).
Qed.

(** A number literal that fills its text is scanned the same way when
    followed by text that cannot continue a number. *)
Lemma scan_number_ext t ip fr ex rest :
  scan_number t = Some (ip, fr, ex, []) -> terminated rest ->
  scan_number (t ++ rest) = Some (ip, fr, ex, rest) /\ t = ip ++ fr ++ ex.
Proof.
  unfold scan_number. intros H Hrest.
  destruct (scan_integer t) as [[ip' s1]|] eqn:Hi; [simpl in H|done].
  destruct (scan_frac s1) as [fr' s2] eqn:Hf.
  destruct (scan_exp s2) as [ex' s3] eqn:He.
  injection H as -> -> -> ->.
  assert (Hs1 : s1 = [] -> no_digit_head rest)
    by (intros _; by apply terminated_no_digit_head).
  rewrite (scan_integer_ext _ _ _ rest Hi Hs1). simpl.
  rewrite (scan_frac_ext _ _ _ _ rest Hf He Hrest).
  rewrite (scan_exp_ext _ _ rest He Hrest).
  split; [done|].
  apply scan_integer_split in Hi as ->. apply scan_frac_split in Hf as ->.
  apply scan_exp_split in He as ->. by rewrite app_nil_r.
Qed.

Lemma span_digits_uint d :
  span_digits (chars (NilEmpty.string_of_uint d))
  = (chars (NilEmpty.string_of_uint d), []).
Proof.
  unfold chars. induction d; simpl; [done|..]; by rewrite IHd.
Qed.

Lemma to_uint_normal p : Decimal.unorm (Pos.to_uint p) = Pos.to_uint p.
Proof.
  rewrite <- DecimalPos.Unsigned.to_of, DecimalPos.Unsigned.of_to. reflexivity.
Qed.

(** The decimal digits of a positive number start with a digit that is
    not zero. *)
Lemma scan_unsigned_to_uint p sign :
  let t := chars (NilEmpty.string_of_uint (Pos.to_uint p)) in
  scan_unsigned sign t = Some (sign ++ t, []).
Proof.
  pose proof (to_uint_normal p) as Hn.
  pose proof (DecimalPos.Unsigned.to_uint_nonzero p) as Hz.
  pose proof (DecimalPos.Unsigned.to_uint_nonnil p) as Hnil.
  unfold scan_unsigned.
  destruct (Pos.to_uint p) as [|d|d|d|d|d|d|d|d|d|d]; [done|..];
    cbn [NilEmpty.string_of_uint chars list_ascii_of_string];
    try (cbn [Ascii.eqb Bool.eqb is_digit]; simpl;
         fold (chars (NilEmpty.string_of_uint d));
         by rewrite span_digits_uint).
  exfalso. unfold Decimal.unorm in Hn. rewrite DecimalFacts.nzhead_D0 in Hn.
  destruct (Decimal.nzhead d) as [|u|u|u|u|u|u|u|u|u|u] eqn:Hd; try discriminate Hn.
  - by rewrite Hn in Hz.
  - exact (DecimalFacts.nzhead_nonzero d u Hd).
Qed.

Lemma chars_Z_to_string_pos p :
  chars (Z_to_string (Z.pos p)) = chars (NilEmpty.string_of_uint (Pos.to_uint p)).
Proof.
  unfold Z_to_string. simpl. unfold NilZero.string_of_uint.
  pose proof (DecimalPos.Unsigned.to_uint_nonnil p).
  by destruct (Pos.to_uint p).
Qed.

Lemma chars_Z_to_string_neg p :
  chars (Z_to_string (Z.neg p))
  = "-"%char :: chars (NilEmpty.string_of_uint (Pos.to_uint p)).
Proof.
  unfold Z_to_string. simpl. unfold NilZero.string_of_uint.
  pose proof (DecimalPos.Unsigned.to_uint_nonnil p).
  by destruct (Pos.to_uint p).
Qed.

Lemma uint_head_not_minus d t :
  chars (NilEmpty.string_of_uint d) <> "-"%char :: t.
Proof. by destruct d. Qed.

Lemma scan_integer_Z z :
  scan_integer (chars (Z_to_string z)) = Some (chars (Z_to_string z), []).
Proof.
  destruct z as [|p|p].
  - reflexivity.
  - rewrite chars_Z_to_string_pos.
    pose proof (scan_unsigned_to_uint p []) as H. simpl in H.
    unfold scan_integer.
    destruct (chars (NilEmpty.string_of_uint (Pos.to_uint p))) as [|c t] eqn:Ht;
      [done|].
    destruct (Ascii.eqb_spec c "-") as [->|_]; [|done].
    by apply uint_head_not_minus in Ht.
  - rewrite chars_Z_to_string_neg. unfold scan_integer. simpl.
    apply (scan_unsigned_to_uint p ["-"%char]).
Qed.

Lemma scan_number_Z z :
  scan_number (chars (Z_to_string z)) = Some (chars (Z_to_string z), [], [], []).
Proof. unfold scan_number. by rewrite scan_integer_Z. Qed.

Lemma int_of_string_Z z :
  NilZero.int_of_string (Z_to_string z) = Some (Z.to_int z).
Proof.
  unfold Z_to_string. apply NilZero.isi; destruct z; simpl; try done;
    intros [= H]; by apply DecimalPos.Unsigned.to_uint_nonnil in H.
Qed.

Lemma scan_number_or_constant_Z z rest :
  terminated rest ->
  scan_number_or_constant (chars (Z_to_string z) ++ rest) = Some (JInt z, rest).
Proof.
  intros Hrest. unfold scan_number_or_constant.
  destruct (scan_number_ext _ _ _ _ rest (scan_number_Z z) Hrest) as [-> _].
  simpl. unfold chars. rewrite string_of_list_ascii_of_string, int_of_string_Z.
  simpl. by rewrite DecimalZ.of_to.
Qed.

Lemma scan_number_or_constant_float `{!PyFloatLaws} f rest :
  float_kind f = FFinite -> terminated rest ->
  scan_number_or_constant (encode_float f ++ rest) = Some (JFloat f, rest).
Proof.
  intros Hf Hrest. unfold scan_number_or_constant, encode_float. rewrite Hf.
  pose proof (float_repr_literal f Hf) as Hlit. unfold is_float_literal in Hlit.
  destruct (scan_number (chars (float_repr f))) as [[[[ip fr] ex] [|]]|] eqn:Hs;
    try done.
  destruct (scan_number_ext _ _ _ _ rest Hs Hrest) as [-> Htext].
  apply negb_true_iff in Hlit. rewrite Hlit, <- Htext.
  unfold chars. rewrite string_of_list_ascii_of_string, (float_of_repr f Hf).
  done.
Qed.

(** ** Strings *)

Lemma scanstring_escape_char c tail :
  scanstring (escape_char c ++ tail)
  = '(str, r) ← scanstring tail; Some (c :: str, r).
Proof. destruct c as [[] [] [] [] [] [] [] []]; reflexivity. Qed.

Lemma scanstring_escaped cs rest :
  scanstring (flat_map escape_char cs ++ dquote :: rest) = Some (cs, rest).
Proof.
  induction cs as [|c cs IH]; [reflexivity|].
  cbn [flat_map]. rewrite <- app_assoc, scanstring_escape_char, IH. reflexivity.
Qed.

(** ** The first character of a value *)

Lemma number_head_scan_once c t fuel :
  is_digit c || Ascii.eqb c "-" = true ->
  scan_once (S fuel) (c :: t) = scan_number_or_constant (c :: t).
Proof. destruct c as [[] [] [] [] [] [] [] []]; (discriminate || reflexivity). Qed.

Lemma scan_integer_head c t r :
  scan_integer (c :: t) = Some r -> is_digit c || Ascii.eqb c "-" = true.
Proof.
  unfold scan_integer, scan_unsigned.
  destruct (Ascii.eqb c "-"); [by rewrite orb_true_r|].
  destruct (Ascii.eqb_spec c "0") as [->|_]; [done|].
  by destruct (is_digit c).
Qed.

Lemma scan_number_head s r :
  scan_number s = Some r ->
  exists c t, s = c :: t /\ is_digit c || Ascii.eqb c "-" = true.
Proof.
  unfold scan_number. destruct (scan_integer s) as [r'|] eqn:H; [|done].
  intros _. destruct s as [|c t]; [done|].
  exists c, t. split; [done|]. by eapply scan_integer_head.
Qed.

Lemma number_head_value_head c :
  is_digit c || Ascii.eqb c "-" = true -> value_head c = true.
Proof. destruct c as [[] [] [] [] [] [] [] []]; (discriminate || reflexivity). Qed.

Lemma value_head_skip_ws c t : value_head c = true -> skip_ws (c :: t) = c :: t.
Proof. destruct c as [[] [] [] [] [] [] [] []]; (discriminate || reflexivity). Qed.

Lemma value_head_not_close c : value_head c = true -> c <> "]"%char.
Proof. destruct c as [[] [] [] [] [] [] [] []]; (discriminate || done). Qed.

Lemma encode_head `{!PyFloatLaws} v :
  representable v = true -> exists c t, encode v = c :: t /\ value_head c = true.
Proof.
  destruct v as [|b|z|f|s|l|m]; simpl; intros Hv.
  - by eexists _, _.
  - destruct b; by eexists _, _.
  - destruct (scan_number_head _ _ (scan_number_Z z)) as (c & t & -> & Hc).
    exists c, t. split; [done|]. by apply number_head_value_head.
  - unfold encode_float. destruct (float_kind f) eqn:Hf; try done.
    pose proof (float_repr_literal f Hf) as Hlit. unfold is_float_literal in Hlit.
    destruct (scan_number (chars (float_repr f))) as [r|] eqn:Hs; [|done].
    destruct (scan_number_head _ _ Hs) as (c & t & -> & Hc).
    exists c, t. split; [done|]. by apply number_head_value_head.
  - by eexists _, _.
  - by eexists _, _.
  - by eexists _, _.
Qed.

(** ** Induction on values *)

Lemma json_ind (P : json -> Prop) :
  P JNull -> (forall b, P (JBool b)) -> (forall z, P (JInt z)) ->
  (forall f, P (JFloat f)) -> (forall s, P (JStr s)) ->
  (forall l, Forall P l -> P (JArr l)) ->
  (forall m, Forall (fun kv => P (snd kv)) m -> P (JObj m)) ->
  forall v, P v.
Proof.
  intros Hnull Hbool Hint Hfloat Hstr Harr Hobj.
  fix IH 1. intros [|b|z|f|s|l|m].
  - exact Hnull.
  - apply Hbool.
  - apply Hint.
  - apply Hfloat.
  - apply Hstr.
  - apply Harr. induction l as [|v l IHl]; constructor; [apply IH | exact IHl].
  - apply Hobj. induction m as [|[k v] m IHm]; constructor; [apply IH | exact IHm].
Qed.

(** ** Dicts *)

Lemma dict_set_fresh k v d :
  existsb (String.eqb k) (map fst d) = false -> dict_set k v d = d ++ [(k, v)].
Proof.
  induction d as [|[k' v'] d IH]; simpl; [done|].
  rewrite (String.eqb_sym k k'). destruct (String.eqb k' k); [done|].
  simpl. intros H. by rewrite IH.
Qed.

Lemma existsb_app_false k (a b : list string) :
  existsb (String.eqb k) (a ++ b) = false ->
  existsb (String.eqb k) a = false /\ existsb (String.eqb k) b = false.
Proof. rewrite existsb_app. apply orb_false_iff. Qed.

Lemma distinct_app_cons a k b :
  distinct (a ++ k :: b) = true ->
  existsb (String.eqb k) a = false /\ distinct ((a ++ [k]) ++ b) = true.
Proof.
  induction a as [|k' a IH]; simpl.
  - intros H. by split.
  - intros H. apply andb_true_iff in H as [Hk' Hd].
    apply IH in Hd as [Hk Hd]. rewrite Hd, andb_true_r.
    apply negb_true_iff in Hk'. apply existsb_app_false in Hk' as [Ha Hb].
    simpl in Hb. apply orb_false_iff in Hb as [Hkk Hb].
    rewrite (String.eqb_sym k k'), Hkk, Hk. split; [done|].
    rewrite <- app_assoc. simpl. rewrite existsb_app. simpl.
    by rewrite Ha, Hkk, Hb.
Qed.

Lemma py_dict_from (acc m : list (string * json)) :
  distinct (map fst (acc ++ m)) = true ->
  fold_left (fun d kv => dict_set (fst kv) (snd kv) d) m acc = acc ++ m.
Proof.
  revert acc; induction m as [|[k v] m IH]; intros acc H; simpl.
  - by rewrite app_nil_r.
  - rewrite map_app in H. simpl in H. apply distinct_app_cons in H as [Hk Hd].
    rewrite dict_set_fresh by done.
    rewrite IH; [by rewrite <- app_assoc|].
    by rewrite !map_app.
Qed.

Lemma py_dict_distinct (m : list (string * json)) :
  distinct (map fst m) = true -> py_dict m = m.
Proof. intros H. by apply (py_dict_from [] m). Qed.

(** ** The scanner, one step at a time *)

Lemma scan_elements_S fuel s :
  scan_elements (S fuel) s =
  '(v, rest) ← scan_once fuel s;
  match skip_ws rest with
  | "]"%char :: rest' => Some ([v], rest')
  | ","%char :: rest' =>
      '(vs, rest'') ← scan_elements fuel (skip_ws rest');
      Some (v :: vs, rest'')
  | _ => None
  end.
Proof. reflexivity. Qed.

Lemma scan_members_S fuel s :
  scan_members (S fuel) s =
  '(k, rest) ← scanstring s;
  match skip_ws rest with
  | ":"%char :: rest1 =>
      '(v, rest2) ← scan_once fuel (skip_ws rest1);
      let kv := (string_of_list_ascii k, v) in
      match skip_ws rest2 with
      | "}"%char :: rest3 => Some ([kv], rest3)
      | ","%char :: rest3 =>
          match skip_ws rest3 with
          | "034"%char :: rest4 =>
              '(ps, rest5) ← scan_members fuel rest4;
              Some (kv :: ps, rest5)
          | _ => None
          end
      | _ => None
      end
  | _ => None
  end.
Proof. reflexivity. Qed.

Lemma scan_once_array fuel c t :
  value_head c = true ->
  scan_once (S fuel) ("["%char :: c :: t) =
  '(vs, rest) ← scan_elements fuel (c :: t); Some (JArr vs, rest).
Proof. destruct c as [[] [] [] [] [] [] [] []]; (discriminate || reflexivity). Qed.

Lemma scan_once_object fuel t :
  scan_once (S fuel) ("{"%char :: dquote :: t) =
  '(pairs, rest) ← scan_members fuel t; Some (JObj (py_dict pairs), rest).
Proof. reflexivity. Qed.

Lemma scan_once_string fuel t :
  scan_once (S fuel) (dquote :: t) =
  '(str, rest) ← scanstring t; Some (JStr (string_of_list_ascii str), rest).
Proof. reflexivity. Qed.

(** ** Reading back what [dumps] wrote *)

Section RoundTrip.
Context `{!PyFloatLaws}.

Lemma skip_ws_encode v rest :
  representable v = true -> skip_ws (encode v ++ rest) = encode v ++ rest.
Proof.
  intros Hv. destruct (encode_head v Hv) as (c & t & -> & Hc).
  by apply value_head_skip_ws.
Qed.

Lemma encode_length_pos v : representable v = true -> (0 < length (encode v))%nat.
Proof.
  intros Hv. destruct (encode_head v Hv) as (c & t & -> & _). simpl. lia.
Qed.

Lemma scan_elements_join v l :
  Forall reads_back (v :: l) -> forallb representable (v :: l) = true ->
  forall fuel rest, (length (join_with encode (v :: l)) < fuel)%nat ->
  scan_elements fuel (join_with encode (v :: l) ++ "]"%char :: rest)
  = Some (v :: l, rest).
Proof.
  revert v; induction l as [|v' l IH]; intros v HF Hrep fuel rest Hlen.
  - apply Forall_cons in HF as [Hv _]. simpl in Hrep.
    apply andb_true_iff in Hrep as [Hrv _].
    destruct fuel as [|fuel]; [lia|]. simpl in Hlen.
    rewrite scan_elements_S. cbn [join_with].
    rewrite (Hv Hrv fuel) by (simpl; (lia || done)). reflexivity.
  - apply Forall_cons in HF as [Hv HF].
    change (forallb representable (v :: v' :: l))
      with (representable v && forallb representable (v' :: l)) in Hrep.
    apply andb_true_iff in Hrep as [Hrv Hrep].
    destruct fuel as [|fuel]; [lia|].
    change (join_with encode (v :: v' :: l))
      with (encode v ++ chars ", " ++ join_with encode (v' :: l)) in *.
    rewrite !length_app in Hlen. change (length (chars ", ")) with 2%nat in Hlen.
    rewrite scan_elements_S, <- !app_assoc.
    rewrite (Hv Hrv fuel) by (simpl; (lia || done)).
    cbn [mbind option_bind chars list_ascii_of_string app skip_ws is_ws].
    destruct (encode_head v' ltac:(by apply andb_true_iff in Hrep as [? _]))
      as (c & t & Hct & Hc).
    assert (Hskip : skip_ws (join_with encode (v' :: l) ++ "]"%char :: rest)
                    = join_with encode (v' :: l) ++ "]"%char :: rest).
    { destruct l; cbn [join_with]; rewrite Hct; cbn [app];
        by apply value_head_skip_ws. }
    rewrite Hskip, (IH v' HF Hrep) by lia. reflexivity.
Qed.

Lemma encode_member_eq k v :
  encode_member (k, v)
  = dquote :: flat_map escape_char (chars k) ++ dquote :: chars ": " ++ encode v.
Proof.
  unfold encode_member, encode_string. simpl fst. simpl snd.
  cbn [app]. by rewrite <- app_assoc.
Qed.

Lemma scan_members_join kv m :
  Forall (fun kv => reads_back (snd kv)) (kv :: m) ->
  forallb (fun kv => representable (snd kv)) (kv :: m) = true ->
  forall fuel rest t,
    (length (join_with encode_member (kv :: m)) <= fuel)%nat ->
    join_with encode_member (kv :: m) = dquote :: t ->
    scan_members fuel (t ++ "}"%char :: rest) = Some (kv :: m, rest).
Proof.
  revert kv; induction m as [|kv' m IH]; intros [k v] HF Hrep fuel rest t Hlen Ht.
  - apply Forall_cons in HF as [Hv _]. simpl in Hrep, Hv.
    apply andb_true_iff in Hrep as [Hrv _].
    cbn [join_with] in Ht, Hlen. rewrite encode_member_eq in Ht, Hlen.
    injection Ht as <-.
    cbn [length] in Hlen. rewrite !length_app in Hlen. cbn [length] in Hlen.
    rewrite length_app in Hlen. change (length (chars ": ")) with 2%nat in Hlen.
    destruct fuel as [|fuel]; [lia|].
    rewrite scan_members_S, <- app_assoc. cbn [app].
    rewrite scanstring_escaped.
    cbn [mbind option_bind chars list_ascii_of_string app skip_ws is_ws].
    rewrite (skip_ws_encode v _ Hrv).
    rewrite (Hv Hrv fuel) by (simpl; (lia || done)).
    cbn [mbind option_bind skip_ws is_ws].
    by rewrite string_of_list_ascii_of_string.
  - apply Forall_cons in HF as [Hv HF].
    change (forallb (fun kv => representable (snd kv)) ((k, v) :: kv' :: m))
      with (representable v
            && forallb (fun kv => representable (snd kv)) (kv' :: m)) in Hrep.
    apply andb_true_iff in Hrep as [Hrv Hrep]. simpl in Hv.
    change (join_with encode_member ((k, v) :: kv' :: m))
      with (encode_member (k, v) ++ chars ", "
            ++ join_with encode_member (kv' :: m)) in *.
    assert (exists t', join_with encode_member (kv' :: m) = dquote :: t') as [t' Ht'].
    { destruct kv' as [k' v']. destruct m; cbn [join_with];
        rewrite encode_member_eq; cbn [app]; eauto. }
    rewrite Ht' in Ht, Hlen.
    rewrite encode_member_eq in Ht, Hlen. cbn [app] in Ht. injection Ht as <-.
    cbn [length app] in Hlen. rewrite !length_app in Hlen. cbn [length] in Hlen.
    rewrite !length_app in Hlen.
    change (length (chars ": ")) with 2%nat in Hlen.
    change (length (chars ", ")) with 2%nat in Hlen. cbn [length] in Hlen.
    destruct fuel as [|fuel]; [lia|].
    rewrite scan_members_S, <- !app_assoc. cbn [app].
    rewrite scanstring_escaped.
    cbn [mbind option_bind chars list_ascii_of_string app skip_ws is_ws].
    rewrite <- ?app_assoc, (skip_ws_encode v _ Hrv).
    rewrite (Hv Hrv fuel) by (simpl; (lia || done)).
    cbn [mbind option_bind app skip_ws is_ws dquote].
    fold dquote.
    rewrite (IH kv' HF Hrep fuel rest t') by (rewrite ?Ht'; simpl; (lia || done)).
    cbn [mbind option_bind]. by rewrite string_of_list_ascii_of_string.
Qed.

(** Every representable value is read back from its text. *)
Lemma scan_once_encode v : reads_back v.
Proof.
  induction v as [|b|z|f|s|l IH|m IH] using json_ind;
    intros Hrep fuel rest Hlen Hrest.
  - destruct fuel; [simpl in Hlen; lia | reflexivity].
  - destruct fuel; [destruct b; simpl in Hlen; lia | by destruct b].
  - pose proof (encode_length_pos (JInt z) Hrep) as Hpos.
    destruct fuel as [|fuel]; [lia|].
    destruct (scan_number_head _ _ (scan_number_Z z)) as (c & t & Hct & Hc).
    cbn [encode]. rewrite <- (scan_number_or_constant_Z z rest Hrest).
    rewrite Hct. cbn [app]. by apply number_head_scan_once.
  - pose proof (encode_length_pos (JFloat f) Hrep) as Hpos.
    destruct fuel as [|fuel]; [lia|].
    simpl in Hrep. destruct (float_kind f) eqn:Hf; try done.
    rewrite <- (scan_number_or_constant_float f rest Hf Hrest).
    pose proof (float_repr_literal f Hf) as Hlit. unfold is_float_literal in Hlit.
    destruct (scan_number (chars (float_repr f))) as [r|] eqn:Hs; [|done].
    destruct (scan_number_head _ _ Hs) as (c & t & Hct & Hc).
    cbn [encode]. unfold encode_float. rewrite Hf, Hct. cbn [app].
    by apply number_head_scan_once.
  - destruct fuel as [|fuel]; [simpl in Hlen; lia|].
    cbn [encode]. unfold encode_string. cbn [app].
    rewrite scan_once_string, <- app_assoc. cbn [app].
    rewrite scanstring_escaped. cbn [mbind option_bind].
    unfold chars. by rewrite string_of_list_ascii_of_string.
  - destruct fuel as [|fuel]; [simpl in Hlen; lia|].
    destruct l as [|v l]; [reflexivity|].
    cbn [encode representable] in *.
    cbn [length] in Hlen. rewrite length_app in Hlen. cbn [length] in Hlen.
    destruct (encode_head v ltac:(by apply andb_true_iff in Hrep as [? _]))
      as (c & t & Hct & Hc).
    assert (exists t', join_with encode (v :: l) = c :: t') as [t' Ht'].
    { destruct l; cbn [join_with]; rewrite Hct; cbn [app]; eauto. }
    pose proof (scan_elements_join v l IH Hrep fuel rest ltac:(lia)) as Hel.
    rewrite Ht' in *. cbn [app] in *. rewrite <- app_assoc. cbn [app].
    rewrite scan_once_array by done. by rewrite Hel.
  - destruct fuel as [|fuel]; [simpl in Hlen; lia|].
    destruct m as [|kv m]; [reflexivity|].
    cbn [encode representable] in *.
    apply andb_true_iff in Hrep as [Hkeys Hrep].
    change (join_with _ (kv :: m)) with (join_with encode_member (kv :: m)) in *.
    cbn [length] in Hlen. rewrite length_app in Hlen. cbn [length] in Hlen.
    assert (exists t', join_with encode_member (kv :: m) = dquote :: t') as [t' Ht'].
    { destruct kv as [k v]. destruct m; cbn [join_with];
        rewrite encode_member_eq; cbn [app]; eauto. }
    pose proof (scan_members_join kv m IH Hrep fuel rest t' ltac:(lia) Ht') as Hm.
    rewrite Ht'. cbn [app]. rewrite <- app_assoc. cbn [app].
    rewrite scan_once_object, Hm. cbn [mbind option_bind].
    by rewrite py_dict_distinct.
Qed.

(** The instance keeps the law of the round trip: [loads (dumps v)] is
    [v], for every value whose floats are finite and whose objects
    have distinct keys. *)
Lemma loads_dumps v : representable v = true -> loads (dumps v) = Ret v.
Proof.
  intros Hrep. unfold loads, dumps, chars.
  rewrite list_ascii_of_string_of_list_ascii.
  rewrite <- (app_nil_r (encode v)), (skip_ws_encode v [] Hrep).
  rewrite (scan_once_encode v Hrep _ []); [done| |done].
  rewrite app_nil_r. lia.
Qed.

End RoundTrip.

End JsonFacts.

(** * Facts about the project store *)

Section ProjectFacts.
Context `{J : JsonLib}.


(** What the owner is shown comes from a row of the table that the
    session's user owns. *)
Lemma load_project_Ok (db : gmap Z Project.t) session pid view :
  load_project session db pid = Ok view ->
  exists uid p, session = Some uid /\ db !! pid = Some p /\
    Project.owner_id p = uid /\
    json_loads (Project.config_json p) = Ret (view_config view).
Proof.
  unfold load_project. destruct session as [uid|]; [|discriminate].
  destruct (db !! pid) as [p|]; [|discriminate].
  destruct (Z.eqb_spec (Project.owner_id p) uid) as [Heq|]; [simpl|discriminate].
  destruct (json_loads _) as [c|] eqn:Hc; [|discriminate].
  intros [= <-]. exists uid, p. by split_and!.
Qed.

End ProjectFacts.

(** ** The small instance keeps the float laws *)

Lemma chars_app (a b : string) : chars (a +:+ b) = (chars a ++ chars b)%list.
Proof. unfold chars. induction a as [|c a IH]; simpl; [done | by rewrite IH]. Qed.

Lemma strip_point_zero_repr (t : list ascii) :
  strip_point_zero (t ++ chars ".0") = t.
Proof.
  unfold strip_point_zero. rewrite rev_app_distr. simpl. apply rev_involutive.
Qed.

#[local] Instance IntLib_laws : PyFloatLaws (L := IntLib).
Proof.
  split; intros z _; simpl; unfold int_float_repr.
  - unfold is_float_literal, scan_number. rewrite chars_app.
    rewrite (scan_integer_ext _ _ _ (chars ".0") (scan_integer_Z z)) by done.
    reflexivity.
  - unfold int_float_of_str. rewrite chars_app, strip_point_zero_repr.
    unfold chars. rewrite string_of_list_ascii_of_string, int_of_string_Z.
    simpl. by rewrite DecimalZ.of_to.
Qed.

(** * Save, then load *)

Section SaveLoad.
Context `{L : PyLib} `{J : JsonLib}.

(** The key of a new row is not a key of the table. *)
Lemma next_id_fresh (db : gmap Z Project.t) : db !! next_id db = None.
Proof.
  unfold next_id.
  cut (forall k, is_Some (db !! k) ->
         k <= map_fold (fun k _ acc => Z.max k acc) 0 db).
  { intros Hmax. destruct (db !! _) eqn:Hk; [|done].
    specialize (Hmax _ (mk_is_Some _ _ Hk)). lia. }
  apply (map_fold_weak_ind (fun r (m : gmap Z Project.t) =>
           forall k, is_Some (m !! k) -> k <= r)).
  - intros k [x Hx]. by rewrite lookup_empty in Hx.
  - intros i x m r Hi IH k Hk.
    destruct (decide (i = k)) as [->|Hne]; [lia|].
    rewrite lookup_insert_ne in Hk by done. specialize (IH k Hk). lia.
Qed.


End SaveLoad.



(** * Facts about the table loader and the uploads *)

Section LoaderFacts.

Lemma chars_append (a b : string) :
  list_ascii_of_string (a +:+ b)
  = (list_ascii_of_string a ++ list_ascii_of_string b)%list.
Proof. induction a as [|c a IH]; simpl; [done | by rewrite IH]. Qed.

Lemma split_last_None sep s :
  split_last sep s = None <-> sep ∉ list_ascii_of_string s.
Proof.
  induction s as [|c s IH]; simpl.
  - split; [intros _; apply not_elem_of_nil | done].
  - rewrite not_elem_of_cons. destruct (split_last sep s) as [[h t]|].
    + split; [discriminate|]. intros [_ Hs]. by apply IH in Hs.
    + destruct (Ascii.eqb_spec c sep) as [->|Hne].
      * split; [discriminate | intros [? _]; done].
      * split; [|done]. intros _. split; [congruence | by apply IH].
Qed.

Lemma split_last_Some sep s h t :
  split_last sep s = Some (h, t) <->
  s = h +:+ String sep t /\ sep ∉ list_ascii_of_string t.
Proof.
  revert h; induction s as [|c s IH]; intros h; simpl.
  - split; [discriminate|]. intros [H _]. by destruct h.
  - destruct (split_last sep s) as [[h' t']|] eqn:Hs.
    + split.
      * intros [= <- <-]. destruct (proj1 (IH h') eq_refl) as [-> Ht]. by split.
      * intros [Heq Ht]. destruct h as [|c' h].
        -- simpl in Heq. injection Heq as -> ->.
           apply split_last_None in Ht. congruence.
        -- simpl in Heq. injection Heq as -> Heq.
           by injection (proj2 (IH h) (conj Heq Ht)) as -> ->.
    + destruct (Ascii.eqb_spec c sep) as [->|Hne].
      * apply split_last_None in Hs. split.
        -- by intros [= <- <-].
        -- intros [Heq Ht]. destruct h as [|c' h]; simpl in Heq.
           ++ by injection Heq as ->.
           ++ injection Heq as -> ->. exfalso. apply Hs.
              rewrite chars_append. apply elem_of_app. right. left.
      * split; [discriminate|]. intros [Heq Ht]. exfalso.
        destruct h as [|c' h]; simpl in Heq; injection Heq as -> Heq; [done|].
        apply split_last_None in Hs. apply Hs. subst s.
        rewrite chars_append. apply elem_of_app. right. left.
Qed.

Lemma has_dot_true s : has_dot s = true <-> "."%char ∈ list_ascii_of_string s.
Proof.
  unfold has_dot. rewrite existsb_exists. split.
  - intros (c & Hin & Hc). apply Ascii.eqb_eq in Hc as <-. by apply list_elem_of_In.
  - intros Hin. exists "."%char. split; [by apply list_elem_of_In | done].
Qed.

Lemma str_in_true x l : str_in x l = true <-> x ∈ l.
Proof.
  unfold str_in. rewrite existsb_exists. split.
  - intros (y & Hin & Hy). apply String.eqb_eq in Hy as <-. by apply list_elem_of_In.
  - intros Hin. exists x. split; [by apply list_elem_of_In | apply String.eqb_refl].
Qed.

Lemma rsplit_dot_last_ext stem ext :
  "."%char ∉ list_ascii_of_string ext ->
  rsplit_dot_last (stem +:+ "." +:+ ext) = ext.
Proof.
  intros Hext. unfold rsplit_dot_last.
  change (stem +:+ "." +:+ ext) with (stem +:+ String "." ext).
  by rewrite (proj2 (split_last_Some "." _ stem ext) (conj eq_refl Hext)).
Qed.

(** X1.  [allowed_file] accepts exactly the names that end in a dot
    followed by [csv], [xlsx] or [xls] in any mix of cases: the text
    after the last dot decides, and a name without a dot is refused. *)
Theorem allowed_file_iff filename :
  allowed_file filename = true <->
  exists stem ext,
    filename = (stem +:+ "." +:+ ext) /\
    ("."%char ∉ list_ascii_of_string ext) /\
    py_lower ext ∈ ALLOWED_EXT.
Proof.
  unfold allowed_file. rewrite andb_true_iff, has_dot_true, str_in_true. split.
  - intros [Hdot Hext]. unfold rsplit_dot_last in Hext.
    destruct (split_last "." filename) as [[h t]|] eqn:Hs.
    + apply split_last_Some in Hs as [-> Ht]. by exists h, t.
    + apply split_last_None in Hs. done.
  - intros (stem & ext & -> & Hdot & Hext).
    rewrite rsplit_dot_last_ext by done. split; [|done].
    rewrite chars_append. apply elem_of_app. right. left.
Qed.

Section Dispatch.
Context `{L : PyLib}.
Variable content : Type.
Variable read_csv : content -> res DataFrame.
Variable read_excel : content -> res DataFrame.

(** X2.  [read_table] chooses the reader by the text after the last dot
    of the path, whatever its case: the Excel reader for [xls] and
    [xlsx], the CSV reader for everything else. *)
Theorem read_table_by_extension stem ext c :
  "."%char ∉ list_ascii_of_string ext ->
  Loader.read_table content read_csv read_excel (stem +:+ "." +:+ ext) c
  = if str_in (py_lower ext) ["xls"; "xlsx"] then read_excel c else read_csv c.
Proof.
  intros Hext. unfold Loader.read_table. by rewrite rsplit_dot_last_ext.
Qed.

End Dispatch.

End LoaderFacts.

Lemma allowed_file_witness : allowed_file "sales.2024.CSV" = true.
Proof.
  apply allowed_file_iff. exists "sales.2024", "CSV".
  split; [reflexivity|]. split; [|by apply str_in_true].
  intros H. by apply has_dot_true in H.
Defined.

Lemma read_table_by_extension_witness :
  Loader.read_table DataFrame csv_reader excel_refuses "up/data.XLSX" pets
  = Raise ParserError.
Proof.
  apply (read_table_by_extension DataFrame csv_reader excel_refuses "up/data" "XLSX").
  intros H. by apply has_dot_true in H.
Defined.

Section UploadFacts.
Context `{L : PyLib}.
Variable content : Type.
Variable read_csv : content -> res DataFrame.
Variable read_excel : content -> res DataFrame.
Variable secure_filename : string -> string.
Variable UPLOAD_FOLDER : string.

Local Abbreviation upload_file :=
  (upload_file content read_csv read_excel secure_filename UPLOAD_FOLDER).
Local Abbreviation stored := (stored content read_csv read_excel UPLOAD_FOLDER).

(** X3.  An upload without a file part, with an empty file name or with
    a name that [allowed_file] refuses is answered with status 400, and
    the upload folder is left as it was. *)
Theorem upload_refused_leaves_folder stamp uploads file :
  file = None \/
  (exists f, file = Some f /\
     (fs_filename f = "" \/ allowed_file (fs_filename f) = false)) ->
  exists m, upload_file stamp uploads file = (Error (Msg m) 400, uploads).
Proof.
  intros [-> | (f & -> & Hf)]; simpl; [eauto|].
  destruct (String.eqb_spec (fs_filename f) "") as [|Hne]; [eauto|].
  destruct Hf as [|Hf]; [done|]. rewrite Hf. simpl. eauto.
Qed.

(** X4.  An accepted upload is written to the folder before it is
    read: when pandas cannot read it, the answer is status 400, the
    file stays in the folder under its sanitized name, and a later
    [get_columns] for that name lets the reader's exception through. *)
Theorem unreadable_upload_is_kept stamp uploads f e :
  let filename := secure_filename (stamp +:+ "_" +:+ fs_filename f) in
  fs_filename f <> "" -> allowed_file (fs_filename f) = true ->
  filename <> "" ->
  read_table (stored filename (fs_content f)) = Raise e ->
  exists uploads',
    upload_file stamp uploads (Some f)
      = (Error (MsgExn "unable to read file: " e) 400, uploads') /\
    uploads' !! filename = Some (stored filename (fs_content f)) /\
    get_columns uploads' (Some filename) = Unhandled e.
Proof.
  intros filename Hne Hok Hname Hread. eexists. split_and!.
  - unfold upload_file. apply String.eqb_neq in Hne, Hname.
    fold filename. rewrite Hne, Hok, Hname. simpl. by rewrite Hread.
  - apply lookup_insert_eq.
  - unfold get_columns. simpl. apply String.eqb_neq in Hname. rewrite Hname.
    by rewrite lookup_insert_eq, Hread.
Qed.

Lemma record_set_fresh k v (d : list (string * scalar)) :
  k ∉ d.*1 -> record_set k v d = (d ++ [(k, v)])%list.
Proof.
  induction d as [|[k' v'] d IH]; simpl; [done|].
  intros [Hk Hd]%not_elem_of_cons.
  destruct (String.eqb_spec k' k) as [->|_]; [done|]. by rewrite IH.
Qed.

Lemma record_set_cells k v (d : list (string * scalar)) kv :
  kv ∈ record_set k v d -> snd kv = v \/ kv ∈ d.
Proof.
  induction d as [|[k' v'] d IH]; simpl.
  - intros ->%list_elem_of_singleton. by left.
  - destruct (String.eqb k' k).
    + intros [->|Hin]%elem_of_cons; [by left|]. right. by apply list_elem_of_further.
    + intros [->|Hin]%elem_of_cons; [right; apply list_elem_of_here|].
      destruct (IH Hin) as [?|?]; [by left|]. right. by apply list_elem_of_further.
Qed.

Lemma record_fold_distinct (m acc : list (string * scalar)) :
  NoDup (acc.*1 ++ m.*1)%list ->
  fold_left (fun d kv => record_set (fst kv) (snd kv) d) m acc = (acc ++ m)%list.
Proof.
  revert acc. induction m as [|[k v] m IH]; intros acc Hnd; simpl.
  - by rewrite app_nil_r.
  - simpl in Hnd. rewrite record_set_fresh.
    + rewrite IH; [by rewrite <- app_assoc|].
      rewrite fmap_app. simpl. by rewrite <- app_assoc.
    + apply NoDup_app in Hnd as (_ & Hnd & _). intros Hin.
      apply (Hnd k Hin), list_elem_of_here.
Qed.

Lemma record_fold_cells (m acc : list (string * scalar)) kv :
  kv ∈ fold_left (fun d kv => record_set (fst kv) (snd kv) d) m acc ->
  kv ∈ acc \/ exists kv', kv' ∈ m /\ snd kv = snd kv'.
Proof.
  revert acc. induction m as [|[k v] m IH]; intros acc; simpl; [by left|].
  intros [Hin|(kv' & Hin & Heq)]%IH.
  - apply record_set_cells in Hin as [Hv|Hin]; [|by left].
    right. exists (k, v). split; [apply list_elem_of_here | done].
  - right. exists kv'. split; [by apply list_elem_of_further | done].
Qed.

Lemma to_record_labels cols row :
  NoDup cols -> (to_record cols row).*1 = cols.
Proof.
  intros Hnd. unfold to_record.
  assert ((imap (fun i col => (col, cell i row)) cols).*1 = cols) as Hl.
  { rewrite fmap_imap.
    induction cols as [|c cols IH] using rev_ind; [done|].
    rewrite imap_app, IH; [done|]. by apply NoDup_app in Hnd as (? & _). }
  rewrite record_fold_distinct; simpl; by rewrite Hl.
Qed.

Lemma to_record_cells cols row col v :
  (col, v) ∈ to_record cols row -> v = SStr "" \/ v ∈ row.
Proof.
  unfold to_record. intros [Hin|(kv' & Hin & Heq)]%record_fold_cells;
    [by apply elem_of_nil in Hin|].
  apply elem_of_lookup_imap_1 in Hin as (i & c & -> & Hc).
  simpl in Heq. subst v.
  unfold cell. destruct (nth_in_or_default i row (SStr "")) as [Hi| ->]; [|by left].
  right. by apply list_elem_of_In.
Qed.

Lemma fillna_empty_not_nan c : ~ is_nan (fillna_empty c).
Proof.
  destruct c as [z|f|b|s]; simpl; try tauto.
  destruct (float_kind f) eqn:Hf; simpl; [by rewrite Hf | tauto | by rewrite Hf..].
Qed.

(** X5.  A successful upload answers with the sanitized name, the
    labels of the table read from the stored file and a preview of its
    first rows: eight of them, or all when the table has fewer.  No
    record of the preview holds a nan, and when the labels of the table
    are pairwise distinct every record carries them in table order. *)
Theorem upload_preview stamp uploads f resp uploads' :
  upload_file stamp uploads (Some f) = (Ok resp, uploads') ->
  exists df,
    up_file resp = secure_filename (stamp +:+ "_" +:+ fs_filename f) /\
    read_table (stored (up_file resp) (fs_content f)) = Ret df /\
    up_columns resp = columns df /\
    length (up_preview resp) = Nat.min 8 (length (rows df)) /\
    Forall (fun record => Forall (fun kv => ~ is_nan (snd kv)) record)
           (up_preview resp) /\
    (NoDup (columns df) ->
     Forall (fun record => record.*1 = columns df) (up_preview resp)).
Proof.
  unfold upload_file.
  destruct (String.eqb (fs_filename f) ""); [discriminate|].
  destruct (negb (allowed_file (fs_filename f))); [discriminate|].
  destruct (String.eqb (secure_filename _) ""); [discriminate|].
  destruct (read_table _) as [df|e] eqn:Hread; [|discriminate].
  intros [= <- <-]. exists df. simpl. split_and!; try done.
  - unfold preview_of. by rewrite length_map, length_take.
  - unfold preview_of. apply Forall_fmap, Forall_forall. intros row _. simpl.
    apply Forall_forall. intros [col v] Hin. simpl.
    apply to_record_cells in Hin as [-> | Hin]; [simpl; tauto|].
    apply list_elem_of_fmap in Hin as (c & -> & _). apply fillna_empty_not_nan.
  - intros Hnd. unfold preview_of. apply Forall_fmap, Forall_forall.
    intros row _. simpl. by apply to_record_labels.
Qed.

(** X6.  After a successful upload, [get_columns] for the name the
    upload answered gives the labels the upload listed and the row
    count of the whole table, which the preview never exceeds. *)
Theorem upload_then_get_columns stamp uploads f resp uploads' :
  upload_file stamp uploads (Some f) = (Ok resp, uploads') ->
  exists n,
    get_columns uploads' (Some (up_file resp))
      = Ok {| col_columns := up_columns resp; col_rows := n |} /\
    (length (up_preview resp) <= n)%nat.
Proof.
  unfold upload_file.
  destruct (String.eqb (fs_filename f) ""); [discriminate|].
  destruct (negb (allowed_file (fs_filename f))); [discriminate|].
  destruct (String.eqb_spec (secure_filename (stamp +:+ "_" +:+ fs_filename f)) "")
    as [|Hname]; [discriminate|].
  destruct (read_table _) as [df|e] eqn:Hread; [|discriminate].
  intros [= <- <-]. exists (length (rows df)). simpl. split.
  - unfold get_columns. simpl. apply String.eqb_neq in Hname. rewrite Hname.
    by rewrite lookup_insert_eq, Hread.
  - unfold preview_of. rewrite length_map, length_take. lia.
Qed.

End UploadFacts.

(** * More facts about the chart pipeline *)

Section EngineFacts.
Context `{L : PyLib}.

Lemma index_of_elem col cols i : index_of col cols = Some i -> col ∈ cols.
Proof.
  revert i; induction cols as [|c cols IH]; intros i; simpl; [done|].
  destruct (String.eqb_spec c col) as [->|_]; [intros _; left|].
  destruct (index_of col cols); [|done]. intros _. right. by eapply IH.
Qed.

(** X7.  When [generate_chart] succeeds, [get_columns] for the same
    file succeeds too; the chart's row count is at most the row count
    [get_columns] reports, and the x and y columns are among the labels
    it lists. *)
Theorem chart_within_columns uploads data r :
  generate_chart uploads data = Ok r ->
  exists c xc yc,
    get_columns uploads (req_file data) = Ok c /\
    req_xcol data = Some xc /\ req_ycol data = Some yc /\
    (nrows r <= col_rows c)%nat /\
    xc ∈ col_columns c /\ yc ∈ col_columns c.
Proof.
  unfold generate_chart, get_columns. intros H.
  destruct (py_not (req_file data)); [discriminate|].
  destruct (req_xcol data) as [xc|]; [|discriminate].
  destruct (req_ycol data) as [yc|]; [|by rewrite orb_true_r in H].
  destruct (_ || _ || _); [discriminate|].
  destruct (uploads !! _) as [f|]; [|discriminate].
  destruct (read_table f) as [df|]; [|discriminate].
  destruct (apply_filters df _) as [df'|] eqn:Hfil; [|discriminate].
  apply apply_filters_Ret in Hfil as (items & _ & ->).
  unfold getitem in H. simpl in H.
  destruct (index_of xc (columns df)) as [i|] eqn:Hi; [|discriminate].
  destruct (index_of yc (columns df)) as [j|] eqn:Hj; [|discriminate].
  injection H as <-. eexists _, xc, yc. split_and!; try done; simpl.
  - unfold df_len. simpl. apply sublist_length, filter_sublist.
  - by eapply index_of_elem.
  - by eapply index_of_elem.
Qed.

Lemma astype_float_Forall s fs :
  astype_float s = Ret fs -> Forall (fun c => exists f, scalar_to_float c = Ret f) s.
Proof.
  revert fs; induction s as [|c s IH]; intros fs; simpl; [constructor|].
  destruct (scalar_to_float c) as [f|] eqn:Hf; [simpl|discriminate].
  destruct (astype_float s) as [fs'|]; [|discriminate]. intros _.
  constructor; eauto.
Qed.

Lemma astype_float_total s :
  Forall (fun c => exists f, scalar_to_float c = Ret f) s ->
  exists fs, astype_float s = Ret fs.
Proof.
  induction 1 as [|c s [f Hf] _ [fs IH]]; simpl; [eauto|].
  rewrite Hf, IH. simpl. eauto.
Qed.

Lemma filter_within p (rs rs' : list (list scalar)) :
  within rs rs' -> within (List.filter p rs) (List.filter p rs').
Proof.
  intros Hsub r Hr. apply list_elem_of_In, filter_In in Hr as [Hr Hp].
  apply list_elem_of_In, filter_In. split; [|done].
  by apply list_elem_of_In, Hsub, list_elem_of_In.
Qed.

Lemma range_bound_within cmp df col v d rs' :
  range_bound cmp df col v = Ret d -> within (rows df) rs' ->
  exists i, index_of col (columns df) = Some i /\
    d = {| columns := columns df;
           rows := List.filter (range_pass cmp i v) (rows df) |} /\
    range_bound cmp {| columns := columns df; rows := rs' |} col v
    = Ret {| columns := columns df;
             rows := List.filter (range_pass cmp i v) rs' |}.
Proof.
  intros H Hsub.
  destruct (range_bound_Ret _ _ _ _ _ H) as (i & Hi & ->).
  exists i. split; [done|]. split; [done|].
  cut (exists d', range_bound cmp {| columns := columns df; rows := rs' |} col v
                 = Ret d').
  { intros [d' Hd']. rewrite Hd'.
    apply range_bound_Ret in Hd' as (i' & Hi' & ->). simpl in *.
    rewrite Hi in Hi'. by injection Hi' as <-. }
  revert H. unfold range_bound, getitem. simpl. rewrite Hi. simpl.
  destruct (astype_float (map (cell i) (rows df))) as [fs|] eqn:Hfs; [|discriminate].
  simpl. destruct (py_float v) as [b|]; [|discriminate]. intros _.
  apply astype_float_Forall in Hfs.
  destruct (astype_float_total (map (cell i) rs')) as [fs' ->]; [|simpl; eauto].
  rewrite Forall_fmap in Hfs |- *. rewrite Forall_forall in Hfs |- *.
  intros r Hr. apply Hfs, Hsub, Hr.
Qed.

(** A predicate that succeeds on a table succeeds on every table with
    the same labels and rows taken from it. *)
Lemma apply_filter_within df col fconf d rs' :
  apply_filter df col fconf = Ret d -> within (rows df) rs' ->
  apply_filter {| columns := columns df; rows := rs' |} col fconf
  = Ret {| columns := columns df;
           rows := List.filter (item_pass (columns df) (col, fconf)) rs' |}.
Proof.
  intros H Hsub.
  cut (exists d', apply_filter {| columns := columns df; rows := rs' |} col fconf
                 = Ret d').
  { intros [d' Hd']. rewrite Hd'. by apply apply_filter_Ret in Hd' as ->. }
  revert H. unfold apply_filter, has_column. simpl.
  destruct (index_of col (columns df)) as [i|] eqn:Hi; simpl; [|eauto].
  destruct (py_get fconf "type") as [ty|]; [simpl|discriminate].
  destruct (json_is_str ty "range").
  - destruct (py_get fconf "min") as [mn|]; [simpl|discriminate].
    destruct (py_get fconf "max") as [mx|]; [simpl|discriminate].
    intros H. apply bind_Ret in H as (a & Ha & H).
    assert (exists rs1 rs1',
              a = {| columns := columns df; rows := rs1 |} /\
              match mn with
              | Some v => range_bound float_ge
                            {| columns := columns df; rows := rs' |} col v
              | None => Ret {| columns := columns df; rows := rs' |}
              end = Ret {| columns := columns df; rows := rs1' |} /\
              within rs1 rs1') as (rs1 & rs1' & -> & -> & Hsub1).
    { destruct mn as [v|].
      - destruct (range_bound_within _ _ _ _ _ rs' Ha Hsub) as (i' & _ & -> & ->).
        eexists _, _. split_and!; try done. by apply filter_within.
      - injection Ha as <-. exists (rows df), rs'. by destruct df. }
    simpl. destruct mx as [v|]; [|eauto].
    destruct (range_bound_within _ _ _ _ _ rs1' H Hsub1) as (i' & _ & _ & Hr).
    simpl in Hr. rewrite Hr. eauto.
  - destruct (json_is_str ty "text"); [|eauto].
    destruct (py_get_default fconf "text" (JStr "")) as [txt|]; [simpl|discriminate].
    destruct (truthy txt); [|eauto].
    unfold text_contains, getitem. simpl. rewrite Hi. simpl.
    destruct txt; try discriminate.
    destruct (re_compile_ignorecase s); [eauto|discriminate].
Qed.

Lemma apply_items_within items : forall df d rs',
  apply_items df items = Ret d -> within (rows df) rs' ->
  apply_items {| columns := columns df; rows := rs' |} items
  = Ret {| columns := columns df;
           rows := List.filter (items_pass (columns df) items) rs' |}.
Proof.
  induction items as [|[col fconf] items IH]; intros df d rs' H Hsub; simpl in *.
  - unfold items_pass. simpl. by rewrite filter_true_id.
  - apply bind_Ret in H as (a & Ha & H).
    rewrite (apply_filter_within _ _ _ _ rs' Ha Hsub). simpl.
    apply apply_filter_Ret in Ha as ->.
    pose proof (IH _ _ (List.filter (item_pass (columns df) (col, fconf)) rs') H
                  ltac:(by apply filter_within)) as Hrest.
    simpl in Hrest. rewrite Hrest. by rewrite filter_filter_andb.
Qed.

(** X8.  Filtering is idempotent: a specification that succeeds on a
    table succeeds on its own result and returns it unchanged. *)
Theorem filters_idempotent df F d :
  apply_filters df F = Ret d -> apply_filters d F = Ret d.
Proof.
  intros H. destruct F as [| | | | | |items]; try discriminate.
  unfold apply_filters in *. simpl in *.
  pose proof (apply_items_Ret _ _ _ H) as ->.
  rewrite (apply_items_within items df _
             (List.filter (items_pass (columns df) items) (rows df)) H).
  - simpl. f_equal. f_equal. rewrite filter_filter_andb.
    apply List.filter_ext. intros r. apply andb_diag.
  - intros r Hr. apply list_elem_of_In, filter_In in Hr as [Hr _].
    by apply list_elem_of_In.
Qed.

(** X9.  A specification that succeeds on a table succeeds on any part
    of it: on a table with the same labels whose rows all come from the
    first one, it keeps the rows that it kept there. *)
Theorem filters_succeed_on_fewer_rows df F d rs' :
  apply_filters df F = Ret d ->
  (forall r, r ∈ rs' -> r ∈ rows df) ->
  exists d',
    apply_filters {| columns := columns df; rows := rs' |} F = Ret d' /\
    columns d' = columns df /\
    (forall r, r ∈ rows d' <-> r ∈ rs' /\ r ∈ rows d).
Proof.
  intros H Hsub. destruct F as [| | | | | |items]; try discriminate.
  unfold apply_filters in *. simpl in *.
  rewrite (apply_items_within items df d rs' H Hsub).
  eexists. split; [done|]. split; [done|]. simpl.
  apply apply_items_Ret in H as ->. simpl. intros r.
  rewrite !list_elem_of_In, !filter_In.
  split; [|tauto]. intros [Hr Hp]. split_and!; auto.
  by apply list_elem_of_In, Hsub, list_elem_of_In.
Qed.

(** X10.  One specification holding the predicates of [F] followed by
    those of [G] gives what [F] followed by [G] gives as two passes,
    a failure included. *)
Theorem filters_concat_is_two_passes df F G :
  apply_filters df (JObj (F ++ G)) = then_filters df (JObj F) (JObj G).
Proof.
  unfold then_filters, apply_filters. simpl. apply apply_items_app.
Qed.


(** X12.  A predicate on a column that the table does not have, or
    whose type is neither [range] nor [text], is skipped, whatever
    else its configuration holds: the specification gives the same
    result with it and without it. *)
Theorem skipped_predicates df col fconf :
  has_column df col = false \/
  (exists ty, py_get fconf "type" = Ret ty /\
     json_is_str ty "range" = false /\ json_is_str ty "text" = false) ->
  forall pre post,
    apply_filters df (JObj (pre ++ (col, fconf) :: post))
    = apply_filters df (JObj (pre ++ post)).
Proof.
  intros Hskip pre post. unfold apply_filters. simpl. rewrite !apply_items_app.
  destruct (apply_items df pre) as [d|e] eqn:Hpre; simpl; [|done].
  assert (apply_filter d col fconf = Ret d) as ->; [|done].
  unfold apply_filter. destruct Hskip as [Hcol | (ty & -> & Hr & Ht)].
  - unfold has_column in *. by rewrite (apply_items_columns _ _ _ Hpre), Hcol.
  - destruct (negb (has_column d col)); [done|]. simpl. by rewrite Hr, Ht.
Qed.


End EngineFacts.

(** * Facts about the accounts *)

Lemma find_user_None users username :
  find_user users username = None <-> username ∉ map User.username users.
Proof.
  unfold find_user. induction users as [|u users IH]; simpl.
  - split; [intros _; apply not_elem_of_nil | done].
  - rewrite not_elem_of_cons. destruct (String.eqb_spec (User.username u) username).
    + split; [discriminate | intros [? _]; done].
    + rewrite IH. split; [by split | tauto].
Qed.

Lemma find_user_Some users username u :
  find_user users username = Some u -> u ∈ users /\ User.username u = username.
Proof.
  unfold find_user. intros H. apply find_some in H as [Hin Heq].
  split; [by apply list_elem_of_In | by apply String.eqb_eq].
Qed.

Lemma find_user_app_new users u :
  find_user users (User.username u) = None ->
  find_user (users ++ [u]) (User.username u) = Some u.
Proof.
  unfold find_user. induction users as [|v users IH]; simpl.
  - by rewrite String.eqb_refl.
  - destruct (String.eqb (User.username v) (User.username u)); [discriminate|].
    apply IH.
Qed.

Lemma next_user_id_above users u :
  u ∈ users -> User.id u < next_user_id users.
Proof.
  unfold next_user_id. induction 1 as [u users|u v users _ IH]; simpl; lia.
Qed.

Section AccountFacts.
Variable generate_password_hash : string -> string -> string.
Variable check_password_hash : string -> string -> bool.

Local Abbreviation register := (register generate_password_hash).
Local Abbreviation login := (login check_password_hash).

(** X14.  For a register request whose body is an object with
    [username] and [password] each a string or absent (the requests of
    [Credentials]): a request that is not accepted is answered with
    status 400, and neither the user table nor the session changes. *)
Theorem register_refused_changes_nothing salt now users session data o users' session' :
  register salt now users session data = (o, users', session') ->
  (forall name, o <> Ok name) ->
  (exists m, o = Error (Msg m) 400) /\ users' = users /\ session' = session.
Proof.
  unfold register.
  destruct (_ || _); [intros [= <- <- <-]; eauto|].
  destruct (find_user users _); intros [= <- <- <-] Hno; [eauto|].
  by destruct (Hno _ eq_refl).
Qed.

(** X15.  [register] keeps the user table well formed: when user names
    are pairwise distinct and keys are pairwise distinct before the
    call, they are after it, whether the request is accepted or not. *)
Theorem register_keeps_names_and_keys_distinct
    salt now users session data o users' session' :
  NoDup (map User.username users) -> NoDup (map User.id users) ->
  register salt now users session data = (o, users', session') ->
  NoDup (map User.username users') /\ NoDup (map User.id users').
Proof.
  intros Hnames Hids. unfold register.
  destruct (_ || _); [by intros [= <- <- <-]|].
  destruct (find_user users _) eqn:Hfind; intros [= <- <- <-]; [done|].
  rewrite !map_app. simpl. split; apply NoDup_app; split_and!; try done.
  - intros x Hx Hx'. apply list_elem_of_singleton in Hx' as ->.
    by apply find_user_None in Hfind.
  - apply NoDup_singleton.
  - intros x Hx Hx'. apply list_elem_of_singleton in Hx' as ->.
    apply list_elem_of_fmap in Hx as (u & Hid & Hu).
    apply next_user_id_above in Hu. lia.
  - apply NoDup_singleton.
Qed.

(** X16.  Round trip of the credentials: after an accepted register
    request, a login request with the same user name and password is
    accepted and sets the session of the new user, provided the hash
    of a password checks against that password. *)
Theorem register_then_login salt now users session data name users' session' s0 :
  (forall password salt,
     check_password_hash (generate_password_hash password salt) password = true) ->
  register salt now users session data = (Ok name, users', session') ->
  login users' s0 data = (Ok name, session') /\
  exists uid, session' = Some (uid, name) /\ cred_username data = Some name.
Proof.
  intros Hlaw. unfold register, login.
  destruct (_ || _) eqn:Hcred; [discriminate|].
  destruct (find_user users _) eqn:Hfind; [discriminate|].
  intros [= <- <- <-]. 
  pose proof (find_user_app_new users
    {| User.id := next_user_id users;
       User.username := default "" (cred_username data);
       User.password_hash :=
         generate_password_hash (default "" (cred_password data)) salt;
       User.created_at := now |} Hfind) as Hnew.
  simpl in Hnew. rewrite Hnew. simpl. rewrite Hlaw. simpl.
  split; [done|]. eexists. split; [done|].
  destruct (cred_username data); [done | discriminate].
Qed.


(** X18.  An accepted login sets the session of a registered user whose
    stored hash checks against the password sent. *)
Theorem login_accepts_only_checked_passwords users session data name session' :
  login users session data = (Ok name, session') ->
  exists u password,
    u ∈ users /\ User.username u = name /\
    cred_username data = Some name /\ cred_password data = Some password /\
    check_password_hash (User.password_hash u) password = true /\
    session' = Some (User.id u, name).
Proof.
  unfold login. destruct (cred_username data) as [username|]; [|discriminate].
  destruct (cred_password data) as [password|]; [|by rewrite orb_true_r].
  destruct (_ || _); [discriminate|]. simpl.
  destruct (find_user users username) as [u|] eqn:Hfind; [|discriminate].
  destruct (check_password_hash _ _) eqn:Hcheck; [simpl|discriminate].
  intros [= <- <-]. apply find_user_Some in Hfind as [Hin Hname].
  exists u, password. rewrite Hname. by split_and!.
Qed.

End AccountFacts.

(** * More facts about the project store *)

Section StoreFacts.
Context `{L : PyLib} `{J : JsonLib}.

Ltac in_list :=
  repeat first [apply list_elem_of_here | apply list_elem_of_further].

(** X19.  For a save request whose body is an object with [name] and
    [file] each a string or absent (the requests of [SaveRequest]): a
    request that is not answered with a project id leaves the project
    table as it was, and its status is 401, 400 or 404. *)
Theorem save_refused_leaves_table session uploads (db db' : gmap Z Project.t)
    now data o :
  save_project session uploads db now data = (o, db') ->
  (forall pid, o <> Ok pid) ->
  db' = db /\ exists m status, o = Error (Msg m) status /\ status ∈ [401; 400; 404].
Proof.
  unfold save_project. destruct session as [uid|].
  2:{ intros [= <- <-] _. split; [done|]. eexists _, _. split; [done|]. in_list. }
  destruct (py_not (save_file data)).
  { intros [= <- <-] _. split; [done|]. eexists _, _. split; [done|]. in_list. }
  destruct (uploads !! _).
  - intros [= <- <-] Hno. by destruct (Hno _ eq_refl).
  - intros [= <- <-] _. split; [done|]. eexists _, _. split; [done|]. in_list.
Qed.

(** X20.  An accepted save adds one row and touches no other: the id
    answered was free, every other id holds what it held, and the new
    row belongs to the session's user and carries the [file] of the
    request as it came, a name for which [os.path.exists] held of its
    join with the upload folder.  The name need not be that of an
    uploaded file: the name [.] passes as well. *)
Theorem save_adds_one_row uid uploads (db db' : gmap Z Project.t) now data pid session :
  session = Some uid ->
  save_project session uploads db now data = (Ok pid, db') ->
  db !! pid = None /\
  (forall k, k <> pid -> db' !! k = db !! k) /\
  exists p file, db' !! pid = Some p /\ Project.id p = pid /\
    Project.owner_id p = uid /\
    save_file data = Some file /\ Project.file_path p = file /\
    is_Some (uploads !! file).
Proof.
  intros ->. unfold save_project.
  destruct (save_file data) as [file|]; [|discriminate]. simpl.
  destruct (String.eqb file ""); [discriminate|].
  destruct (uploads !! file) eqn:Hup; [|discriminate].
  intros [= <- <-]. simpl. split; [apply next_id_fresh|]. split.
  - intros k Hk. by rewrite lookup_insert_ne.
  - eexists _, file. rewrite lookup_insert_eq. split_and!; try done.
Qed.

(** X21.  Saving never changes what an existing project loads as: a
    project that loads in some session before a save request, accepted
    or not, loads the same in that session after it. *)
Theorem load_survives_save session (db db' : gmap Z Project.t) pid view
    session2 uploads now data o :
  load_project session db pid = Ok view ->
  save_project session2 uploads db now data = (o, db') ->
  load_project session db' pid = Ok view.
Proof.
  intros Hload Hsave.
  assert (db' !! pid = db !! pid) as Hsame.
  { revert Hsave. unfold save_project. destruct session2 as [uid|]; [|by intros [= _ <-]].
    destruct (py_not (save_file data)); [by intros [= _ <-]|].
    destruct (uploads !! _); [|by intros [= _ <-]].
    intros [= _ <-]. apply lookup_insert_ne. intros Heq.
    apply load_project_Ok in Hload as (? & p & _ & Hp & _).
    by rewrite <- Heq, next_id_fresh in Hp. }
  revert Hload. unfold load_project. by rewrite Hsame.
Qed.

#[local] Instance newer_first_total : Total newer_first.
Proof. intros p q. unfold newer_first. lia. Qed.

#[local] Instance newer_first_trans : Transitive newer_first.
Proof. intros p q r. unfold newer_first. lia. Qed.

Lemma elem_of_list_projects uid (db : gmap Z Project.t) l :
  list_projects (Some uid) db = Ok l ->
  forall s, s ∈ l <->
    exists k p, db !! k = Some p /\ Project.owner_id p = uid /\ s = summary p.
Proof.
  unfold list_projects. intros [= <-] s.
  rewrite list_elem_of_fmap. setoid_rewrite merge_sort_Permutation. split.
  - intros (p & -> & Hp). apply list_elem_of_In, filter_In in Hp as [Hp Ho].
    apply list_elem_of_In, list_elem_of_fmap in Hp as ([k p'] & -> & Hkp).
    apply elem_of_map_to_list in Hkp. exists k, p'. simpl in *.
    split_and!; try done. by apply Z.eqb_eq.
  - intros (k & p & Hkp & Ho & ->). exists p. split; [done|].
    apply list_elem_of_In, filter_In. split; [|by apply Z.eqb_eq].
    apply list_elem_of_In, list_elem_of_fmap. exists (k, p). split; [done|].
    by apply elem_of_map_to_list.
Qed.

(** X22.  [list_projects] lists the projects of the session's user and
    no others, each once, newest first: an entry is in the list exactly
    when it is the summary of a row of the table owned by the user, the
    list is a rearrangement of the user's rows, and creation times
    never increase along the list. *)
Theorem list_projects_own_newest_first uid (db : gmap Z Project.t) l :
  list_projects (Some uid) db = Ok l ->
  l ≡ₚ map summary
         (List.filter (fun p => Z.eqb (Project.owner_id p) uid)
                      (map snd (map_to_list db))) /\
  (forall s, s ∈ l <->
     exists k p, db !! k = Some p /\ Project.owner_id p = uid /\ s = summary p) /\
  StronglySorted (fun a b => sum_created_at b <= sum_created_at a) l.
Proof.
  intros Hl. split; [|split; [by apply elem_of_list_projects|]];
    revert Hl; unfold list_projects; intros [= <-].
  - apply Permutation_map, merge_sort_Permutation.
  - apply (StronglySorted_fmap _ newer_first); [done|].
    apply StronglySorted_merge_sort; apply _.
Qed.

(** X23.  After an accepted save the new project is in the list of the
    user who saved it, with the name and the file of the request, and
    every project listed before is still listed. *)
Theorem save_then_list uid uploads (db db' : gmap Z Project.t) now data pid l l' :
  save_project (Some uid) uploads db now data = (Ok pid, db') ->
  list_projects (Some uid) db = Ok l ->
  list_projects (Some uid) db' = Ok l' ->
  {| sum_id := pid; sum_name := default "Untitled" (save_name data);
     sum_file := default "" (save_file data); sum_created_at := now |} ∈ l' /\
  (forall s, s ∈ l -> s ∈ l').
Proof.
  intros Hsave Hl Hl'. revert Hsave. unfold save_project.
  destruct (py_not (save_file data)); [discriminate|].
  destruct (uploads !! _); [|discriminate]. simpl. intros [= <- <-].
  split.
  - apply (elem_of_list_projects _ _ _ Hl'). eexists _, _.
    rewrite lookup_insert_eq. by split_and!.
  - intros s Hs. apply (elem_of_list_projects _ _ _ Hl) in Hs as (k & p & Hk & Ho & ->).
    apply (elem_of_list_projects _ _ _ Hl'). exists k, p. split_and!; try done.
    rewrite lookup_insert_ne; [done|]. intros Heq.
    by rewrite <- Heq, next_id_fresh in Hk.
Qed.

End StoreFacts.

(** * Accounts and projects together *)

Section IsolationFacts.
Context `{L : PyLib} `{J : JsonLib}.
Variable generate_password_hash : string -> string -> string.

Local Abbreviation register := (register generate_password_hash).

(** X24.  Two accepted registrations give two different user ids, and a
    project that the first user saves does not load in the session of
    the second: the answer is the 404 of an unknown project. *)
Theorem registered_users_are_isolated
    salt1 now1 users s0 dA nameA users1 sA
    salt2 now2 s1 dB nameB users2 sB
    uploads (db db' : gmap Z Project.t) now data pid :
  register salt1 now1 users s0 dA = (Ok nameA, users1, sA) ->
  register salt2 now2 users1 s1 dB = (Ok nameB, users2, sB) ->
  save_project (session_user sA) uploads db now data = (Ok pid, db') ->
  session_user sA <> session_user sB /\
  load_project (session_user sB) db' pid
  = Error (Msg "project not found or access denied") 404.
Proof.
  unfold register.
  destruct (_ || _); [discriminate|].
  destruct (find_user users _); [discriminate|]. intros [= <- <- <-].
  destruct (_ || _); [discriminate|].
  destruct (find_user _ _); [discriminate|]. intros [= <- <- <-]. simpl.
  set (uA := {| User.id := next_user_id users;
                User.username := default "" (cred_username dA);
                User.password_hash := _; User.created_at := now1 |}).
  assert (Hlt : User.id uA < next_user_id (users ++ [uA])).
  { apply next_user_id_above, elem_of_app. right. left. }
  simpl in Hlt. unfold save_project.
  destruct (py_not (save_file data)); [discriminate|].
  destruct (uploads !! _); [|discriminate]. intros [= <- <-].
  split; [intros [= Heq]; lia|].
  unfold load_project. rewrite lookup_insert_eq. simpl.
  destruct (Z.eqb_spec (next_user_id users) (next_user_id (users ++ [uA])));
    [lia | done].
Qed.

End IsolationFacts.

(** X25.  After [logout] the project views refuse the session: saving,
    listing and loading are all answered with status 401, and saving
    leaves the project table as it was. *)
Theorem logout_closes_project_views `{L : PyLib} `{J : JsonLib} session uploads
    (db : gmap Z Project.t) now data pid :
  let session' := session_user (snd (logout session)) in
  save_project session' uploads db now data
    = (Error (Msg "authentication required") 401, db) /\
  list_projects session' db = Error (Msg "authentication required") 401 /\
  load_project session' db pid = Error (Msg "authentication required") 401.
Proof. by split_and!. Qed.

(** * More facts about the export store *)

Lemma split_first_Some sep h t :
  sep ∉ list_ascii_of_string h ->
  split_first sep (h +:+ String sep t) = Some (h, t).
Proof.
  induction h as [|c h IH]; simpl; intros Hh.
  - by rewrite Ascii.eqb_refl.
  - apply not_elem_of_cons in Hh as [Hc Hh].
    destruct (Ascii.eqb_spec c sep) as [->|_]; [done|]. by rewrite IH.
Qed.

Section MoreExportFacts.
Variable b64decode : string -> res string.
Variable secure_filename : string -> string.

(** X26.  A data URL is cut at its first comma: what follows, further
    commas included, is the payload.  When the payload decodes and the
    sanitized name is not empty, the decoded bytes are written under
    the sanitized name, replacing a file of that name, every other
    file is left alone, and the answer is the path [/exports/] plus
    the sanitized name. *)
Theorem save_png_writes_payload default_name exports data header payload raw :
  let safe_name := secure_filename (default default_name (png_name data)) in
  png_dataURL data = Some (header +:+ String "," payload) ->
  ","%char ∉ list_ascii_of_string header ->
  b64decode payload = Ret raw ->
  safe_name <> "" ->
  exists exports',
    save_png b64decode secure_filename default_name exports data
      = (Ok ("/exports/" +:+ safe_name), exports') /\
    exports' !! safe_name = Some raw /\
    (forall k, k <> safe_name -> exports' !! k = exports !! k).
Proof.
  intros safe_name Hurl Hheader Hdec Hname. eexists. split_and!.
  - unfold save_png. rewrite Hurl. simpl.
    assert ((header +:+ String "," payload =? "")%string = false) as ->.
    { apply String.eqb_neq. by destruct header. }
    unfold split_comma_once. rewrite (split_first_Some _ _ _ Hheader). simpl.
    rewrite Hdec. fold safe_name. apply String.eqb_neq in Hname. by rewrite Hname.
  - apply lookup_insert_eq.
  - intros k Hk. by apply lookup_insert_ne.
Qed.

(** X27.  [save_png] changes the export folder only when it answers
    with a path: after any other outcome the folder is as it was. *)
Theorem save_png_failure_leaves_folder default_name exports data o exports' :
  save_png b64decode secure_filename default_name exports data = (o, exports') ->
  (forall url, o <> Ok url) ->
  exports' = exports.
Proof.
  unfold save_png. destruct (py_not _); [by intros [= _ <-]|].
  destruct (unpack2 _) as [[header b64]|]; [|by intros [= _ <-]].
  destruct (b64decode b64); [|by intros [= _ <-]].
  destruct (String.eqb _ ""); [by intros [= _ <-]|].
  intros [= <- _] Hno. by destruct (Hno _ eq_refl).
Qed.

End MoreExportFacts.

(** * Stored configs stay loadable *)

Section LoadableFacts.
Context `{L : PyLib} `{J : JsonLib}.

(** X28.  The project table keeps the property that [json.loads] reads
    every stored config: a save request preserves it when [json.loads]
    reads the text that [json.dumps] writes for the config of the
    request, and under it every project loads for its owner, with no
    JSON error. *)
Theorem save_keeps_table_loadable session uploads (db db' : gmap Z Project.t)
    now data o :
  loadable db ->
  (exists C,
     json_loads (json_dumps (default empty_dict (save_config data))) = Ret C) ->
  save_project session uploads db now data = (o, db') ->
  loadable db' /\
  forall k p, db' !! k = Some p ->
    exists view, load_project (Some (Project.owner_id p)) db' k = Ok view.
Proof.
  intros Hdb Hrep Hsave.
  assert (Hdb' : loadable db').
  { revert Hsave. unfold save_project. destruct session as [uid|]; [|by intros [= _ <-]].
    destruct (py_not (save_file data)); [by intros [= _ <-]|].
    destruct (uploads !! _); [|by intros [= _ <-]].
    intros [= _ <-] k p. rewrite lookup_insert.
    destruct (decide (next_id db = k)) as [_|_]; [|apply Hdb].
    intros [= <-]. simpl. exact Hrep. }
  split; [exact Hdb'|]. intros k p Hk.
  destruct (Hdb' k p Hk) as (C & Hjson).
  unfold load_project. rewrite Hk, Z.eqb_refl. simpl.
  rewrite Hjson. eauto.
Qed.

End LoadableFacts.

(** * The further facts at concrete inputs *)

Lemma upload_refused_leaves_folder_witness :
  exists m,
    upload_file DataFrame csv_reader excel_refuses id_name "uploads" "20240101" ∅
      (Some {| fs_filename := "notes.txt"; fs_content := pets |})
    = (Error (Msg m) 400, ∅).
Proof.
  apply upload_refused_leaves_folder. right. eexists. split; [reflexivity|].
  right. reflexivity.
Defined.

Lemma unreadable_upload_is_kept_witness :
  exists uploads',
    upload_file DataFrame csv_reader excel_refuses id_name "uploads" "20240101" ∅
      (Some {| fs_filename := "pets.xlsx"; fs_content := pets |})
      = (Error (MsgExn "unable to read file: " ParserError) 400, uploads') /\
    uploads' !! "20240101_pets.xlsx"
      = Some (stored DataFrame csv_reader excel_refuses "uploads"
                "20240101_pets.xlsx" pets) /\
    get_columns uploads' (Some "20240101_pets.xlsx") = Unhandled ParserError.
Proof.
  apply (unreadable_upload_is_kept DataFrame csv_reader excel_refuses id_name
           "uploads" "20240101" ∅ {| fs_filename := "pets.xlsx"; fs_content := pets |});
    (reflexivity || discriminate).
Defined.

Lemma upload_preview_witness :
  exists df,
    up_file pets_uploaded = "20240101_pets.csv" /\
    read_table (stored DataFrame csv_reader excel_refuses "uploads"
                  (up_file pets_uploaded) pets) = Ret df /\
    up_columns pets_uploaded = columns df /\
    length (up_preview pets_uploaded) = Nat.min 8 (length (rows df)) /\
    Forall (fun record => Forall (fun kv => ~ is_nan (snd kv)) record)
           (up_preview pets_uploaded) /\
    (NoDup (columns df) ->
     Forall (fun record => record.*1 = columns df) (up_preview pets_uploaded)).
Proof.
  apply (upload_preview DataFrame csv_reader excel_refuses id_name "uploads"
           "20240101" ∅ {| fs_filename := "pets.csv"; fs_content := pets |}
           pets_uploaded
           (<["20240101_pets.csv" := Readable pets]> ∅)).
  reflexivity.
Defined.

Lemma upload_then_get_columns_witness :
  exists n,
    get_columns (<["20240101_pets.csv" := Readable pets]> ∅)
      (Some (up_file pets_uploaded))
      = Ok {| col_columns := up_columns pets_uploaded; col_rows := n |} /\
    (length (up_preview pets_uploaded) <= n)%nat.
Proof.
  apply (upload_then_get_columns DataFrame csv_reader excel_refuses id_name
           "uploads" "20240101" ∅ {| fs_filename := "pets.csv"; fs_content := pets |}).
  reflexivity.
Defined.

Lemma chart_within_columns_witness :
  exists c xc yc,
    get_columns {[ "f.csv" := Readable pets ]} (Some "f.csv") = Ok c /\
    Some "A" = Some xc /\ Some "B" = Some yc /\
    (2 <= col_rows c)%nat /\ xc ∈ col_columns c /\ yc ∈ col_columns c.
Proof.
  apply (chart_within_columns {[ "f.csv" := Readable pets ]}
           (chart_request "f.csv" "A" "B" (Some (JObj [("A", range_min (JInt 2))])))
           {| x := [SStr "5"; SStr "10"]; y := [SStr "dog"; SStr "cattle"]; nrows := 2 |}).
  reflexivity.
Defined.

Lemma filters_idempotent_witness :
  let F := JObj [("A", range_min (JInt 2)); ("B", text_of "cat")] in
  let d := {| columns := ["A"; "B"]; rows := [[SInt 10; SStr "cattle"]] |} in
  apply_filters pets F = Ret d /\ apply_filters d F = Ret d.
Proof.
  intros F d. split; [reflexivity|].
  apply (filters_idempotent pets F d). reflexivity.
Defined.

Lemma filters_succeed_on_fewer_rows_witness :
  let F := JObj [("A", range_min (JInt 2))] in
  exists d',
    apply_filters {| columns := columns pets; rows := [[SInt 1; SStr "cat"]] |} F
      = Ret d' /\
    columns d' = columns pets /\
    (forall r, r ∈ rows d' <->
       r ∈ [[SInt 1; SStr "cat"]] /\
       r ∈ [[SInt 5; SStr "dog"]; [SInt 10; SStr "cattle"]]).
Proof.
  intros F.
  apply (filters_succeed_on_fewer_rows pets F
           {| columns := ["A"; "B"];
              rows := [[SInt 5; SStr "dog"]; [SInt 10; SStr "cattle"]] |}
           [[SInt 1; SStr "cat"]]).
  - reflexivity.
  - intros r Hr. apply list_elem_of_singleton in Hr as ->. apply list_elem_of_here.
Defined.


Lemma skipped_predicates_witness :
  apply_filters pets (JObj [("Z", JStr "not a dict"); ("A", range_min (JInt 2))])
  = apply_filters pets (JObj [("A", range_min (JInt 2))]).
Proof.
  apply (skipped_predicates pets "Z" (JStr "not a dict") (or_introl eq_refl)
           [] [("A", range_min (JInt 2))]).
Defined.


Lemma register_refused_changes_nothing_witness :
  let data := {| cred_username := Some "ann"; cred_password := Some "x" |} in
  register plain_hash "s2" 5 [ann] None data
    = (Error (Msg "username exists") 400, [ann], None) /\
  (exists m, Error (Msg "username exists") 400 = Error (A := string) (Msg m) 400) /\
  [ann] = [ann] /\ (None : option (Z * string)) = None.
Proof.
  intros data. split; [reflexivity|].
  apply (register_refused_changes_nothing plain_hash "s2" 5 [ann] None data
           (Error (Msg "username exists") 400) [ann] None);
    [reflexivity | discriminate].
Defined.

Lemma register_keeps_names_and_keys_distinct_witness :
  let data := {| cred_username := Some "bob"; cred_password := Some "pw2" |} in
  register plain_hash "s2" 5 [ann] None data
    = (Ok "bob", [ann; bob], Some (2, "bob")) /\
  NoDup (map User.username [ann; bob]) /\ NoDup (map User.id [ann; bob]).
Proof.
  intros data. split; [reflexivity|].
  apply (register_keeps_names_and_keys_distinct plain_hash "s2" 5 [ann] None data
           (Ok "bob") [ann; bob] (Some (2, "bob")));
    [apply NoDup_singleton | apply NoDup_singleton | reflexivity].
Defined.

Lemma register_then_login_witness :
  login (fun pwhash password => String.eqb pwhash password) [ann; plain_bob] None
    {| cred_username := Some "bob"; cred_password := Some "pw2" |}
  = (Ok "bob", Some (2, "bob")) /\
  exists uid, Some (2, "bob") = Some (uid, "bob") /\ Some "bob" = Some "bob".
Proof.
  apply (register_then_login (fun password _ => password)
           (fun pwhash password => String.eqb pwhash password)
           "s2" 5 [ann] None
           {| cred_username := Some "bob"; cred_password := Some "pw2" |}
           "bob" [ann; plain_bob] (Some (2, "bob")) None);
    [intros; apply String.eqb_refl | reflexivity].
Defined.


Lemma login_accepts_only_checked_passwords_witness :
  exists u password,
    u ∈ [ann] /\ User.username u = "ann" /\
    Some "ann" = Some "ann" /\ Some "pw" = Some password /\
    plain_check (User.password_hash u) password = true /\
    Some (1, "ann") = Some (User.id u, "ann").
Proof.
  apply (login_accepts_only_checked_passwords plain_check [ann] None
           {| cred_username := Some "ann"; cred_password := Some "pw" |}
           "ann" (Some (1, "ann"))).
  reflexivity.
Defined.

Lemma save_refused_leaves_table_witness :
  let db : gmap Z Project.t := {[ 1 := sales ]} in
  let data :=
    {| save_name := None; save_file := Some "gone.csv"; save_config := None |} in
  save_project (Some 7) ∅ db 0 data = (Error (Msg "file not found") 404, db) /\
  db = db /\
  exists m status,
    Error (A := Z) (Msg "file not found") 404 = Error (Msg m) status /\
    status ∈ [401; 400; 404].
Proof.
  intros db data. split; [reflexivity|].
  apply (save_refused_leaves_table (Some 7) (∅ : gmap string upload)
           db db 0 data (Error (Msg "file not found") 404));
    [reflexivity | discriminate].
Defined.

Lemma save_adds_one_row_witness :
  let uploads : gmap string upload :=
    {[ "." := Unreadable IsADirectoryError; "f.csv" := Readable pets ]} in
  let data := {| save_name := Some "here"; save_file := Some ".";
                 save_config := None |} in
  let db : gmap Z Project.t := {[ 1 := sales ]} in
  let db' := <[2 := here]> db in
  save_project (Some 7) uploads db 20 data = (Ok 2, db') /\
  db !! 2 = None /\
  (forall k, k <> 2 -> db' !! k = db !! k) /\
  exists p file, db' !! 2 = Some p /\ Project.id p = 2 /\
    Project.owner_id p = 7 /\
    save_file data = Some file /\ Project.file_path p = file /\
    is_Some (uploads !! file).
Proof.
  intros uploads data db db'. split; [reflexivity|].
  apply (save_adds_one_row 7 uploads db db' 20 data 2 (Some 7)); reflexivity.
Defined.

Lemma load_survives_save_witness :
  load_project (Some 7) (<[2 := stock]> {[ 1 := sales ]}) 1
  = Ok {| view_id := 1; view_name := "sales"; view_file := "f.csv";
          view_config := JObj []; view_created_at := 10 |}.
Proof.
  apply (load_survives_save (Some 7) {[ 1 := sales ]} _ 1 _
           (Some 7) {[ "f.csv" := Readable pets ]} 20
           {| save_name := Some "stock"; save_file := Some "f.csv";
              save_config := None |} (Ok 2));
    reflexivity.
Defined.

Lemma list_projects_own_newest_first_witness :
  let db : gmap Z Project.t := <[1:=sales]> (<[2:=stock]> (<[3:=other]> ∅)) in
  let l := [summary stock; summary sales] in
  l ≡ₚ map summary
         (List.filter (fun p => Z.eqb (Project.owner_id p) 7)
                      (map snd (map_to_list db))) /\
  (forall s, s ∈ l <->
     exists k p, db !! k = Some p /\ Project.owner_id p = 7 /\ s = summary p) /\
  StronglySorted (fun a b => sum_created_at b <= sum_created_at a) l.
Proof.
  intros db l. apply (list_projects_own_newest_first 7 db l). reflexivity.
Defined.

Lemma save_then_list_witness :
  {| sum_id := 2; sum_name := "stock"; sum_file := "f.csv"; sum_created_at := 20 |}
    ∈ [summary stock; summary sales] /\
  (forall s, s ∈ [summary sales] -> s ∈ [summary stock; summary sales]).
Proof.
  apply (save_then_list 7 {[ "f.csv" := Readable pets ]} {[ 1 := sales ]}
           (<[2 := stock]> {[ 1 := sales ]}) 20
           {| save_name := Some "stock"; save_file := Some "f.csv";
              save_config := None |} 2);
    reflexivity.
Defined.

Lemma registered_users_are_isolated_witness :
  session_user (Some (1, "ann")) <> session_user (Some (2, "bob")) /\
  load_project (session_user (Some (2, "bob")))
    (<[1 := sales_of_ann]> ∅) 1
  = Error (Msg "project not found or access denied") 404.
Proof.
  apply (registered_users_are_isolated plain_hash
           "s1" 0 [] None {| cred_username := Some "ann"; cred_password := Some "pw" |}
           "ann" [ann] (Some (1, "ann"))
           "s2" 5 None {| cred_username := Some "bob"; cred_password := Some "pw2" |}
           "bob" [ann; bob] (Some (2, "bob"))
           {[ "f.csv" := Readable pets ]} ∅ (<[1 := sales_of_ann]> ∅) 10
           {| save_name := Some "sales"; save_file := Some "f.csv";
              save_config := None |} 1);
    reflexivity.
Defined.

Lemma save_png_writes_payload_witness :
  exists exports',
    save_png (fun _ => Ret "A") id_name "chart.png" ∅
      {| png_name := Some "a.png"; png_dataURL := Some "data:image/png;base64,QQ==" |}
      = (Ok "/exports/a.png", exports') /\
    exports' !! "a.png" = Some "A" /\
    (forall k, k <> "a.png" -> exports' !! k = (∅ : gmap string string) !! k).
Proof.
  apply (save_png_writes_payload (fun _ => Ret "A") id_name "chart.png" ∅
           {| png_name := Some "a.png";
              png_dataURL := Some "data:image/png;base64,QQ==" |}
           "data:image/png;base64" "QQ==" "A");
    try reflexivity; try discriminate.
  intros H. by apply (proj1 (split_first_None "," "data:image/png;base64") eq_refl).
Defined.

Lemma save_png_failure_leaves_folder_witness :
  let exports : gmap string string := {[ "a.png" := "A" ]} in
  let data := {| png_name := None; png_dataURL := None |} in
  save_png (fun _ => Raise BinasciiError) id_name "chart.png" exports data
    = (Error (Msg "dataURL required") 400, exports) /\
  exports = exports.
Proof.
  intros exports data. split; [reflexivity|].
  apply (save_png_failure_leaves_folder (fun _ => Raise BinasciiError) id_name
           "chart.png" exports data (Error (Msg "dataURL required") 400) exports);
    [reflexivity | discriminate].
Defined.

Lemma save_keeps_table_loadable_witness :
  let C : jvalue := sample_config in
  let db : gmap Z Project.t := {[ 1 := sales ]} in
  let db' : gmap Z Project.t :=
    <[2 := {| Project.id := 2; Project.owner_id := 7; Project.name := "stock";
              Project.file_path := "f.csv";
              Project.config_json := json_dumps C;
              Project.created_at := 20 |}]> db in
  loadable db /\ loadable db' /\
  forall k p, db' !! k = Some p ->
    exists view, load_project (Some (Project.owner_id p)) db' k = Ok view.
Proof.
  intros C db db'.
  assert (Hdb : loadable db).
  { intros k p [_ <-]%lookup_singleton_Some. by eexists. }
  split; [exact Hdb|].
  apply (save_keeps_table_loadable (Some 7) {[ "f.csv" := Readable pets ]} db db' 20
           {| save_name := Some "stock"; save_file := Some "f.csv";
              save_config := Some C |} (Ok 2));
    [exact Hdb | by eexists | reflexivity].
Defined.
